(** * docs/notebooks/elmer_01_electrostatic.py

    A shallow embedding of the Elmer electrostatics notebook of gplugins.
    The notebook is a script over three external collaborators: the layout
    library gdsfactory, the solver entry point
    [run_capacitive_simulation_elmer] of gplugins.elmer, and the plotting
    library pyvista.  None of them lives in this file of the repository, so
    they are taken as parameters (records of functions over abstract
    types); what is embedded is what the notebook itself does: the values
    it builds, the calls it makes, their arguments and their order. *)

From Stdlib Require Import QArith.
From stdpp Require Import gmap strings list fin_maps pretty.

Local Open Scope Z_scope.
Local Open Scope string_scope.
Local Open Scope list_scope.

(** ** Values of the notebook *)

(** A layer specification ([gdsfactory.typings.LayerSpec]).  The notebook
    uses two spellings: an attribute of the generic layer map
    ([LAYER.WG]) and a bare layer name (["DEEPTRENCH"]). *)
Inductive LayerSpec : Type :=
| LAYER (attr : string)
| LayerStr (name : string).

#[global] Instance LayerSpec_eq_dec : EqDecision LayerSpec.
Proof. solve_decision. Defined.

(** Numeric literals of the metadata cell.  A float literal is kept as
    written, [PyFloat m e] standing for the decimal [m]e[e]
    (so [200e-3] is [PyFloat 200 (-3)] and [11.45] is [PyFloat 1145 (-2)]);
    [PyInf] is [math.inf]; [PyMul] is a product the script forms and hands
    on without the embedding rounding it. *)
Inductive pynum : Type :=
| PyInt (n : Z)
| PyFloat (mantissa exp10 : Z)
| PyInf
| PyMul (a b : pynum).

#[global] Instance pynum_eq_dec : EqDecision pynum.
Proof. solve_decision. Defined.

(** Integer addition of Python, defined on the [int] literals only. *)
Definition py_int_add (a b : pynum) : option pynum :=
  match a, b with
  | PyInt x, PyInt y => Some (PyInt (x + y))
  | _, _ => None
  end.

(** [LayerLevel(layer=, thickness=, zmin=, material=, mesh_order=)]: the
    keyword arguments the notebook passes.  [material] is optional in the
    library, hence the option. *)
Record LayerLevel : Type := mkLayerLevel {
  layer : LayerSpec;
  thickness : pynum;
  zmin : pynum;
  material : option string;
  mesh_order : Z
}.

(** [LayerStack(layers=dict(...))]. *)
Record LayerStack : Type := mkLayerStack {
  layers : gmap string LayerLevel
}.

Definition substrate_level : LayerLevel :=
  {| layer := LAYER "WAFER";
     thickness := PyInt 500;
     zmin := PyInt 0;
     material := Some "Si";
     mesh_order := 99 |}.

Definition bw_level : LayerLevel :=
  {| layer := LAYER "WG";
     thickness := PyFloat 200 (-3);
     zmin := PyInt 500;
     material := Some "Nb";
     mesh_order := 2 |}.

Definition layer_stack : LayerStack :=
  {| layers := <["bw" := bw_level]>
                 (<["substrate" := substrate_level]> ∅) |}.

(** [material_spec]: material name to property name to value. *)
Definition material_spec : gmap string (gmap string pynum) :=
  <["vacuum" := {["relative_permittivity" := PyInt 1]}]>
    (<["Nb" := {["relative_permittivity" := PyInf]}]>
       (<["Si" := {["relative_permittivity" := PyFloat 1145 (-2)]}]> ∅)).

(** ** The layout library, as a parameter *)

(** Lengths and coordinates of the layout ([float | int] in the source) are
    exact rationals; the script only adds, halves, doubles and negates
    them.  Python computes such an expression in floating point as soon as
    an operand is a float or a division is involved; the theorems below
    keep these expressions as the source writes them and draw nothing
    from their exact value. *)
Definition Qgtb (a b : Q) : bool := negb (Qle_bool a b).

(** [gf.Section(width=, offset=, layer=)]. *)
Record GfSection : Type := mkGfSection {
  s_width : Q;
  s_offset : Q;
  s_layer : LayerSpec
}.

(** [gf.CrossSection(width=, offset=, layer=, port_names=, sections=)]. *)
Record CrossSection : Type := mkCrossSection {
  x_width : Q;
  x_offset : Q;
  x_layer : LayerSpec;
  x_port_names : string * string;
  x_sections : list GfSection
}.

(** A box [[[x0, y0], [x1, y1]]]. *)
Definition Box : Type := (Q * Q) * (Q * Q).

(** The [B] operand of [gf.geometry.boolean]: one component or a list. *)
Inductive Operand (C : Type) : Type :=
| One (c : C)
| Many (cs : list C).
Arguments One {C} c.
Arguments Many {C} cs.

(** What the notebook uses of gdsfactory.  Components are mutable objects
    in the source; here every method that mutates its receiver returns the
    receiver's new value.  A reference obtained with [c << x] lives inside
    [c], so moving it ([movex], [move]) is an update of [c] as well: those
    two take the owner and return it with the moved reference.
    [Route.ports] is a pair (first port, last port), so [route.ports[-1]]
    is its second component.  Ports produced by the capacitor carry a
    numeric [orientation].  Library calls return normally: an exception
    raised inside the library (an assertion of [interdigital_capacitor],
    a route that cannot be built) is outside the embedding, which knows
    only the exceptions of the script's own statements.  The identity of
    objects is not modelled, only their values. *)
Record Gdsfactory : Type := mkGdsfactory {
  Component : Type;
  ComponentReference : Type;
  Port : Type;
  Polygon : Type;
  Route : Type;
  (* defaults of [interdigital_capacitor], read through [inspect.signature] *)
  default_fingers : Z;
  default_finger_length : Q;
  default_finger_gap : Q;
  default_thickness : Q;
  default_layer : LayerSpec;
  (* components *)
  new_component : option string -> Component;
  interdigital_capacitor : Z -> Q -> Q -> Q -> LayerSpec -> Component;
  bbox : Box -> LayerSpec -> Component;
  boolean : Component -> Operand Component -> string -> LayerSpec -> Component;
  ref_center : Component -> ComponentReference;
  add : Component -> list ComponentReference -> Component;
  lshift : Component -> Component -> Component * ComponentReference;
  add_polygon : Component -> Polygon -> LayerSpec -> Component;
  offset : Component -> Q -> LayerSpec -> Component;
  add_port : Component -> Port -> Component;
  add_ports : Component -> list (string * Port) -> Component;
  auto_rename_ports : Component -> Component;
  flatten : Component -> Component;
  ports : Component -> list (string * Port);
  (* references *)
  get_ports_list : ComponentReference -> list Port;
  ref_ports : ComponentReference -> list (string * Port);
  get_polygon_enclosure : ComponentReference -> Polygon;
  movex : Component -> ComponentReference -> Q -> Component * ComponentReference;
  move : Component -> ComponentReference -> Port -> Component * ComponentReference;
  (* ports *)
  orientation : Port -> Q;
  port_copy : Port -> Port;
  port_move : Port -> Q * Q -> Port;
  port_flip : Port -> Port;
  move_copy : Port -> Q * Q -> Port;
  (* routing *)
  get_route : Port -> Port -> CrossSection -> Route;
  references : Route -> list ComponentReference;
  route_ports : Route -> Port * Port
}.

(** One constructor per library call the notebook's geometry code makes,
    carrying the receiver (if any) and the arguments. *)
Inductive Call (G : Gdsfactory) : Type :=
| CComponent (name : option string)
| CInterdigitalCapacitor (fingers : Z) (finger_length finger_gap thickness : Q)
    (lay : LayerSpec)
| CRefCenter (c : Component G)
| CAdd (c : Component G) (refs : list (ComponentReference G))
| CGetPortsList (r : ComponentReference G)
| CPortCopy (p : Port G)
| CPortMove (p : Port G) (d : Q * Q)
| CPortFlip (p : Port G)
| CSection (s : GfSection)
| CCrossSection (x : CrossSection)
| CGetRoute (p1 p2 : Port G) (x : CrossSection)
| CBbox (b : Box) (lay : LayerSpec)
| CLshift (c x : Component G)
| CMovex (r : ComponentReference G) (dx : Q)
| CMoveCopy (p : Port G) (d : Q * Q)
| CMove (r : ComponentReference G) (destination : Port G)
| CAddPort (c : Component G) (p : Port G)
| CAddPorts (c : Component G) (ps : list (string * Port G))
| CAutoRenamePorts (c : Component G)
| CGetPolygonEnclosure (r : ComponentReference G)
| CAddPolygon (c : Component G) (poly : Polygon G) (lay : LayerSpec)
| COffset (c : Component G) (distance : Q) (lay : LayerSpec)
| CBoolean (A : Component G) (B : Operand (Component G)) (operation : string)
    (lay : LayerSpec)
| CFlatten (c : Component G).

Arguments CComponent {G}.
Arguments CInterdigitalCapacitor {G}.
Arguments CRefCenter {G}.
Arguments CAdd {G}.
Arguments CGetPortsList {G}.
Arguments CPortCopy {G}.
Arguments CPortMove {G}.
Arguments CPortFlip {G}.
Arguments CSection {G}.
Arguments CCrossSection {G}.
Arguments CGetRoute {G}.
Arguments CBbox {G}.
Arguments CLshift {G}.
Arguments CMovex {G}.
Arguments CMoveCopy {G}.
Arguments CMove {G}.
Arguments CAddPort {G}.
Arguments CAddPorts {G}.
Arguments CAutoRenamePorts {G}.
Arguments CGetPolygonEnclosure {G}.
Arguments CAddPolygon {G}.
Arguments COffset {G}.
Arguments CBoolean {G}.
Arguments CFlatten {G}.

(** ** Calls with a log, and exceptions *)

Inductive Exn : Type :=
| ValueError (msg : string)
| KeyError (key : string).

(** A computation yields the calls it made, in order, and either a value
    or the exception that stopped it. *)
Definition M (E A : Type) : Type := list E * (Exn + A).

Definition ret {E A} (a : A) : M E A := ([], inr a).
Definition raise {E A} (x : Exn) : M E A := ([], inl x).
Definition call {E A} (e : E) (a : A) : M E A := ([e], inr a).

Definition bind {E A B} (m : M E A) (k : A -> M E B) : M E B :=
  match m with
  | (l, inl x) => (l, inl x)
  | (l, inr a) => let '(l', r) := k a in (l ++ l', r)
  end.

Notation "'let!' x ':=' m 'in' k" := (bind m (fun x => k))
  (at level 10, x name, m at level 100, k at level 200, only parsing).
Notation "'let!' ( x , y ) ':=' m 'in' k" :=
  (bind m (fun p => let x := fst p in let y := snd p in k))
  (at level 10, x name, y name, m at level 100, k at level 200, only parsing).

Definition log {E A} (m : M E A) : list E := fst m.
Definition outcome {E A} (m : M E A) : Exn + A := snd m.

(** [for x in xs: c = body(x, c)]. *)
Fixpoint for_each {E X S} (body : X -> S -> M E S) (xs : list X) (s : S)
  : M E S :=
  match xs with
  | [] => ret s
  | x :: xs' => let! s' := body x s in for_each body xs' s'
  end.

(** [a, b = seq]. *)
Definition unpack2 {E} (seq : list Q) : M E (Q * Q) :=
  match seq with
  | [a; b] => ret (a, b)
  | [] | [_] =>
      raise (ValueError ("not enough values to unpack (expected 2, got "
                         +:+ pretty (length seq) +:+ ")"))
  | _ => raise (ValueError "too many values to unpack (expected 2)")
  end.

(** ** [interdigital_capacitor_enclosed] *)

Section Enclosed.
Context (G : Gdsfactory).

Local Abbreviation Geo := (M (Call G)).

(** Each library call, logged with its arguments. *)
Definition gf_Component (name : option string) : Geo (Component G) :=
  call (CComponent name) (new_component G name).
Definition gf_interdigital_capacitor (fingers : Z)
    (finger_length finger_gap thickness : Q) (lay : LayerSpec)
  : Geo (Component G) :=
  call (CInterdigitalCapacitor fingers finger_length finger_gap thickness lay)
       (interdigital_capacitor G fingers finger_length finger_gap thickness lay).
Definition gf_ref_center (c : Component G) : Geo (ComponentReference G) :=
  call (CRefCenter c) (ref_center G c).
Definition gf_add (c : Component G) (refs : list (ComponentReference G))
  : Geo (Component G) :=
  call (CAdd c refs) (add G c refs).
Definition gf_get_ports_list (r : ComponentReference G) : Geo (list (Port G)) :=
  call (CGetPortsList r) (get_ports_list G r).
Definition gf_port_copy (p : Port G) : Geo (Port G) :=
  call (CPortCopy p) (port_copy G p).
Definition gf_port_move (p : Port G) (d : Q * Q) : Geo (Port G) :=
  call (CPortMove p d) (port_move G p d).
Definition gf_port_flip (p : Port G) : Geo (Port G) :=
  call (CPortFlip p) (port_flip G p).
Definition gf_Section (width offs : Q) (lay : LayerSpec) : Geo GfSection :=
  let s := {| s_width := width; s_offset := offs; s_layer := lay |} in
  call (CSection s) s.
Definition gf_CrossSection (width offs : Q) (lay : LayerSpec)
    (port_names : string * string) (sections : list GfSection)
  : Geo CrossSection :=
  let x := {| x_width := width; x_offset := offs; x_layer := lay;
              x_port_names := port_names; x_sections := sections |} in
  call (CCrossSection x) x.
Definition gf_get_route (p1 p2 : Port G) (x : CrossSection) : Geo (Route G) :=
  call (CGetRoute p1 p2 x) (get_route G p1 p2 x).
Definition gf_bbox (b : Box) (lay : LayerSpec) : Geo (Component G) :=
  call (CBbox b lay) (bbox G b lay).
Definition gf_lshift (c x : Component G)
  : Geo (Component G * ComponentReference G) :=
  call (CLshift c x) (lshift G c x).
Definition gf_movex (c : Component G) (r : ComponentReference G) (dx : Q)
  : Geo (Component G * ComponentReference G) :=
  call (CMovex r dx) (movex G c r dx).
Definition gf_move_copy (p : Port G) (d : Q * Q) : Geo (Port G) :=
  call (CMoveCopy p d) (move_copy G p d).
Definition gf_move (c : Component G) (r : ComponentReference G)
    (destination : Port G) : Geo (Component G * ComponentReference G) :=
  call (CMove r destination) (move G c r destination).
Definition gf_add_port (c : Component G) (p : Port G) : Geo (Component G) :=
  call (CAddPort c p) (add_port G c p).
Definition gf_add_ports (c : Component G) (ps : list (string * Port G))
  : Geo (Component G) :=
  call (CAddPorts c ps) (add_ports G c ps).
Definition gf_auto_rename_ports (c : Component G) : Geo (Component G) :=
  call (CAutoRenamePorts c) (auto_rename_ports G c).
Definition gf_get_polygon_enclosure (r : ComponentReference G)
  : Geo (Polygon G) :=
  call (CGetPolygonEnclosure r) (get_polygon_enclosure G r).
Definition gf_add_polygon (c : Component G) (poly : Polygon G)
    (lay : LayerSpec) : Geo (Component G) :=
  call (CAddPolygon c poly lay) (add_polygon G c poly lay).
Definition gf_offset (c : Component G) (distance : Q) (lay : LayerSpec)
  : Geo (Component G) :=
  call (COffset c distance lay) (offset G c distance lay).
Definition gf_boolean (A : Component G) (B : Operand (Component G))
    (operation : string) (lay : LayerSpec) : Geo (Component G) :=
  call (CBoolean A B operation lay) (boolean G A B operation lay).
Definition gf_flatten (c : Component G) : Geo (Component G) :=
  call (CFlatten c) (flatten G c).

(** [direction = -1 if port.orientation > 0 else 1] *)
Definition direction_of (port : Port G) : Z :=
  if Qgtb (orientation G port) 0 then -1 else 1.

(** [port2]: the copy of [port], moved by [(30 * direction, 0)], flipped. *)
Definition displacement (port : Port G) : Q * Q :=
  (inject_Z (30 * direction_of port), 0%Q).
Definition far_port (port : Port G) : Port G :=
  port_flip G (port_move G (port_copy G port) (displacement port)).

(** The cross-section of the coplanar waveguide: trace of width [cpw_a]
    on the metal layer, and a gap of width [cpw_b] on either side. *)
Definition cpw_s1 (cpw_a cpw_b : Q) (gap_layer : LayerSpec) : GfSection :=
  {| s_width := cpw_b; s_offset := ((cpw_a + cpw_b) / 2)%Q;
     s_layer := gap_layer |}.
Definition cpw_s2 (cpw_a cpw_b : Q) (gap_layer : LayerSpec) : GfSection :=
  {| s_width := cpw_b; s_offset := (- ((cpw_a + cpw_b) / 2))%Q;
     s_layer := gap_layer |}.
Definition cpw_cross_section (cpw_a cpw_b : Q)
    (metal_layer gap_layer : LayerSpec) : CrossSection :=
  {| x_width := cpw_a; x_offset := 0%Q; x_layer := metal_layer;
     x_port_names := ("in", "out");
     x_sections := [cpw_s1 cpw_a cpw_b gap_layer;
                    cpw_s2 cpw_a cpw_b gap_layer] |}.

(** The body of [for port in cap.get_ports_list()], on the component [c]
    under construction. *)
Definition loop_body (cpw_dimensions : list Q)
    (metal_layer gap_layer : LayerSpec) (port : Port G) (c : Component G)
  : Geo (Component G) :=
  let! port2 := gf_port_copy port in
  let direction := direction_of port in
  let! port2 := gf_port_move port2 (inject_Z (30 * direction), 0%Q) in
  let! port2 := gf_port_flip port2 in
  let! (cpw_a, cpw_b) := unpack2 cpw_dimensions in
  let! s1 := gf_Section cpw_b ((cpw_a + cpw_b) / 2)%Q gap_layer in
  let! s2 := gf_Section cpw_b (- ((cpw_a + cpw_b) / 2))%Q gap_layer in
  let! x := gf_CrossSection cpw_a 0%Q metal_layer ("in", "out") [s1; s2] in
  let! route := gf_get_route port port2 x in
  let! c := gf_add c (references G route) in
  let! b := gf_bbox ((0, 0), (cpw_b, cpw_a + 2 * cpw_b))%Q gap_layer in
  let! (c, term) := gf_lshift c b in
  let! (c, term) :=
    (if (direction <? 0)%Z then gf_movex c term (- cpw_b)%Q else ret (c, term)) in
  let! dest := gf_move_copy (snd (route_ports G route))
                 (-1 * 0, -1 * (cpw_a / 2 + cpw_b))%Q in
  let! (c, term) := gf_move c term dest in
  let! c := gf_add_port c (snd (route_ports G route)) in
  gf_auto_rename_ports c.

(** The decorated function (the [gf.cell] decorator names and caches the
    result; it is not part of the embedding). *)
Definition interdigital_capacitor_enclosed
    (enclosure_box : Box) (fingers : Z)
    (finger_length finger_gap thickness : Q)
    (cpw_dimensions : list Q) (gap_to_ground : Q)
    (metal_layer gap_layer : LayerSpec) : Geo (Component G) :=
  let! c := gf_Component None in
  let! capc := gf_interdigital_capacitor fingers finger_length finger_gap
                 thickness metal_layer in
  let! cap := gf_ref_center capc in
  let! c := gf_add c [cap] in
  let! gap := gf_Component None in
  let! cap_ports := gf_get_ports_list cap in
  let! c := for_each (loop_body cpw_dimensions metal_layer gap_layer)
              cap_ports c in
  let! poly := gf_get_polygon_enclosure cap in
  let! gap := gf_add_polygon gap poly gap_layer in
  let! gap := gf_offset gap gap_to_ground gap_layer in
  let! gap := gf_boolean gap (One c) "A-B" gap_layer in
  let! ground := gf_bbox enclosure_box metal_layer in
  let! ground := gf_boolean ground (Many [c; gap]) "A-B" metal_layer in
  let! (c, _) := gf_lshift c ground in
  gf_flatten c.

End Enclosed.

(** ** The solver and the plotting library, as parameters *)

(** [Path(os.getcwd()) / "tmp"] and the paths the solver reports. *)
Inductive Path : Type :=
| PathOf (s : string)
| PathJoin (p : Path) (child : string).

(** The [mesh_parameters] dictionary. *)
Record MeshParameters (G : Gdsfactory) : Type := mkMeshParameters {
  background_tag : string;
  background_padding : list Z;
  portnames : list (string * Port G);
  default_characteristic_length : Z;
  layer_portname_delimiter : string;
  resolutions : gmap string (gmap string Z)
}.
Arguments background_tag {G}.
Arguments background_padding {G}.
Arguments portnames {G}.
Arguments default_characteristic_length {G}.
Arguments layer_portname_delimiter {G}.
Arguments resolutions {G}.

(** The arguments of the one call of [run_capacitive_simulation_elmer]. *)
Record SolverArgs (G : Gdsfactory) : Type := mkSolverArgs {
  arg_component : Component G;
  arg_layer_stack : LayerStack;
  arg_material_spec : gmap string (gmap string pynum);
  arg_n_processes : Z;
  arg_element_order : Z;
  arg_simulation_folder : Path;
  arg_mesh_parameters : MeshParameters G
}.
Arguments arg_component {G}.
Arguments arg_layer_stack {G}.
Arguments arg_material_spec {G}.
Arguments arg_n_processes {G}.
Arguments arg_element_order {G}.
Arguments arg_simulation_folder {G}.
Arguments arg_mesh_parameters {G}.

(** Everything outside gdsfactory the notebook talks to: the working
    directory, the solver (any function of its arguments to an abstract
    result), the result's [field_file_location] ([None] or a path), and
    pyvista's reader and slicer. *)
Record World (G : Gdsfactory) : Type := mkWorld {
  Results : Type;
  Mesh : Type;
  getcwd : string;
  run_capacitive_simulation_elmer : SolverArgs G -> Results;
  field_file_location : Results -> option Path;
  pv_read : Path -> Mesh;
  slice_orthogonal : Mesh -> pynum -> Mesh
}.
Arguments Results {G}.
Arguments Mesh {G}.
Arguments getcwd {G}.
Arguments run_capacitive_simulation_elmer {G}.
Arguments field_file_location {G}.
Arguments pv_read {G}.
Arguments slice_orthogonal {G}.

(** The steps of the notebook, top to bottom: the external calls, the
    bindings of its global names, the geometry calls ([EvGf]), and, for
    the solver call, the passing of each keyword argument ([EvKeyword],
    logged once the argument's value is evaluated, in the order of the
    source). *)
Inductive Event (G : Gdsfactory) (W : World G) : Type :=
| EvRichOutput
| EvGetGenericPdk
| EvActivate
| EvLayerLevel (l : LayerLevel)
| EvLayerStack (ls : LayerStack)
| EvSignature
| EvDef (name : string)
| EvAssign (name : string)
| EvGf (c : Call G)
| EvGetcwd
| EvPath (p : Path)
| EvKeyword (name : string)
| EvRunCapacitiveSimulationElmer (args : SolverArgs G)
| EvPrint (r : Results W)
| EvPvRead (p : Path)
| EvSliceOrthogonal (m : Mesh W) (z : pynum)
| EvPlotter
| EvAddMesh (m : Mesh W) (scalars cmap : string)
| EvShowGrid
| EvSetCameraPosition (v : string)
| EvEnableParallelProjection
| EvShow.

Arguments EvRichOutput {G W}.
Arguments EvGetGenericPdk {G W}.
Arguments EvActivate {G W}.
Arguments EvLayerLevel {G W}.
Arguments EvLayerStack {G W}.
Arguments EvSignature {G W}.
Arguments EvDef {G W}.
Arguments EvAssign {G W}.
Arguments EvGf {G W}.
Arguments EvGetcwd {G W}.
Arguments EvPath {G W}.
Arguments EvKeyword {G W}.
Arguments EvRunCapacitiveSimulationElmer {G W}.
Arguments EvPrint {G W}.
Arguments EvPvRead {G W}.
Arguments EvSliceOrthogonal {G W}.
Arguments EvPlotter {G W}.
Arguments EvAddMesh {G W}.
Arguments EvShowGrid {G W}.
Arguments EvSetCameraPosition {G W}.
Arguments EvEnableParallelProjection {G W}.
Arguments EvShow {G W}.

(** The stages of the notebook.  [Metadata] is the stage in which the
    layer stack and the material permittivities are attached to the
    simulation, that is, passed to the solver as [layer_stack=] and
    [material_spec=]; building these two values, in the first cells, is
    set-up. *)
Inductive Phase : Type :=
| Setup
| Metadata
| Geometry
| Solver
| Visualization.

#[global] Instance Phase_eq_dec : EqDecision Phase.
Proof. solve_decision. Defined.

Definition phase_of_name (name : string) : Phase :=
  if decide (name ∈ ["simulation_box"; "c"; "cap"; "substrate"])
  then Geometry
  else if decide (name ∈ ["field"; "slice"; "p"]) then Visualization
  else Setup.

Definition phase_of_keyword (name : string) : Phase :=
  if decide (name ∈ ["layer_stack"; "material_spec"]) then Metadata
  else Setup.

Definition phase_of {G W} (e : Event G W) : Phase :=
  match e with
  | EvAssign name => phase_of_name name
  | EvKeyword name => phase_of_keyword name
  | EvGf _ => Geometry
  | EvRunCapacitiveSimulationElmer _ => Solver
  | EvPvRead _ | EvSliceOrthogonal _ _ | EvPlotter | EvAddMesh _ _ _
  | EvShowGrid | EvSetCameraPosition _ | EvEnableParallelProjection
  | EvShow => Visualization
  | _ => Setup
  end.

(** The stages a trace goes through, the set-up steps left out. *)
Definition stages {G W} (t : list (Event G W)) : list Phase :=
  filter (fun ph => ph <> Setup) (map phase_of t).





(** ** The notebook, cell by cell *)

Section Notebook.
Context {G : Gdsfactory} (W : World G).

Local Abbreviation Nb := (M (Event G W)).

Definition step {A} (e : Event G W) (a : A) : Nb A := call e a.
Definition assign (name : string) : Nb unit := call (EvAssign name) tt.

(** The geometry calls, seen as steps of the notebook. *)
Definition lift {A} (m : M (Call G) A) : Nb A := (map EvGf (fst m), snd m).

(** [gf.config.rich_output(); PDK = get_generic_pdk(); PDK.activate()] *)
Definition cell_setup : Nb unit :=
  let! _ := step EvRichOutput tt in
  let! _ := step EvGetGenericPdk tt in
  let! _ := assign "PDK" in
  step EvActivate tt.

(** [layer_stack = LayerStack(...)] and [material_spec = {...}] *)
Definition cell_metadata
  : Nb (LayerStack * gmap string (gmap string pynum)) :=
  let! sub := step (EvLayerLevel substrate_level) substrate_level in
  let! bw := step (EvLayerLevel bw_level) bw_level in
  let ls := {| layers := <["bw" := bw]> (<["substrate" := sub]> ∅) |} in
  let! ls := step (EvLayerStack ls) ls in
  let! _ := assign "layer_stack" in
  let! _ := assign "material_spec" in
  ret (ls, material_spec).

(** [INTERDIGITAL_DEFAULTS = {...}] and the [def] of the cell function. *)
Definition cell_function : Nb unit :=
  let! _ := step EvSignature tt in
  let! _ := assign "INTERDIGITAL_DEFAULTS" in
  step (EvDef "interdigital_capacitor_enclosed") tt.

Definition simulation_box : Box := ((-200, -200), (200, 200))%Q.

(** The geometry cell.  The value of the closing [c.flatten()] is
    dropped, as in the source. *)
Definition cell_geometry : Nb (Component G) :=
  let! _ := assign "simulation_box" in
  let! c := lift (gf_Component G (Some "capacitance_elmer")) in
  let! _ := assign "c" in
  let! enclosed := lift (interdigital_capacitor_enclosed G simulation_box
                     (default_fingers G) (default_finger_length G)
                     (default_finger_gap G) (default_thickness G)
                     [10; 6]%Q 5%Q (LAYER "WG") (LAYER "DEEPTRENCH")) in
  let! (c, cap) := lift (gf_lshift G c enclosed) in
  let! _ := assign "cap" in
  let! c := lift (gf_add_ports G c (ref_ports G cap)) in
  let! substrate := lift (gf_bbox G simulation_box (LAYER "WAFER")) in
  let! _ := assign "substrate" in
  let! (c, _) := lift (gf_lshift G c substrate) in
  let! _ := lift (gf_flatten G c) in
  ret c.

Definition delimiter : string := "__".

Definition port_resolution : gmap string Z :=
  <["SizeMin" := 3]> (<["SizeMax" := 14]> (<["DistMin" := 10]>
    (<["DistMax" := 30]> (<["resolution" := 20]> ∅)))).

(** The [resolutions] dictionary: three fixed entries, then one entry
    [bw__<port>] per port name, later keys replacing earlier ones. *)
Definition resolutions_of (port_names : list string)
  : gmap string (gmap string Z) :=
  foldl (fun m port => <["bw" +:+ delimiter +:+ port := port_resolution]> m)
    (<["vacuum" := {["resolution" := 40]}]>
       (<["substrate" := {["resolution" := 40]}]>
          (<["bw" := {["resolution" := 15]}]> ∅)))
    port_names.

Definition mesh_parameters_of (c : Component G) : MeshParameters G :=
  {| background_tag := "vacuum";
     background_padding := replicate 5 0 ++ [700];
     portnames := ports G c;
     default_characteristic_length := 200;
     layer_portname_delimiter := delimiter;
     resolutions := resolutions_of (map fst (ports G c)) |}.

Definition solver_args (c : Component G) (ls : LayerStack)
    (ms : gmap string (gmap string pynum)) (folder : Path) : SolverArgs G :=
  {| arg_component := c;
     arg_layer_stack := ls;
     arg_material_spec := ms;
     arg_n_processes := 4;
     arg_element_order := 1;
     arg_simulation_folder := folder;
     arg_mesh_parameters := mesh_parameters_of c |}.

(** [results = run_capacitive_simulation_elmer(...); print(results)].
    The arguments are evaluated left to right before the call: [c], then
    the keyword arguments; [delimiter := "__"] is bound while
    [mesh_parameters] is built. *)
Definition cell_solver (c : Component G) (ls : LayerStack)
    (ms : gmap string (gmap string pynum)) : Nb (Results W) :=
  let! _ := step (EvKeyword "layer_stack") tt in
  let! _ := step (EvKeyword "material_spec") tt in
  let! _ := step (EvKeyword "n_processes") tt in
  let! _ := step (EvKeyword "element_order") tt in
  let! cwd := step EvGetcwd (getcwd W) in
  let folder := PathJoin (PathOf cwd) "tmp" in
  let! _ := step (EvPath folder) tt in
  let! _ := step (EvKeyword "simulation_folder") tt in
  let! _ := assign "delimiter" in
  let! _ := step (EvKeyword "mesh_parameters") tt in
  let args := solver_args c ls ms folder in
  let! results := step (EvRunCapacitiveSimulationElmer args)
                    (run_capacitive_simulation_elmer W args) in
  let! _ := assign "results" in
  let! _ := step (EvPrint results) tt in
  ret results.

(** [layer_stack.layers["bw"].zmin * 1e-6] *)
Definition slice_height (ls : LayerStack) : Nb pynum :=
  match layers ls !! "bw" with
  | Some lvl => ret (PyMul (zmin lvl) (PyFloat 1 (-6)))
  | None => raise (KeyError "bw")
  end.

(** The plotting steps, taken when [results.field_file_location] is a
    path. *)
Definition plot_field (loc : Path) (ls : LayerStack) : Nb unit :=
  let! field := step (EvPvRead loc) (pv_read W loc) in
  let! _ := assign "field" in
  let! z := slice_height ls in
  let! slice := step (EvSliceOrthogonal field z)
                  (slice_orthogonal W field z) in
  let! _ := assign "slice" in
  let! _ := step EvPlotter tt in
  let! _ := assign "p" in
  let! _ := step (EvAddMesh slice "electric field" "turbo") tt in
  let! _ := step EvShowGrid tt in
  let! _ := step (EvSetCameraPosition "xy") tt in
  let! _ := step EvEnableParallelProjection tt in
  step EvShow tt.

(** [if results.field_file_location: ...] *)
Definition cell_plot (results : Results W) (ls : LayerStack) : Nb unit :=
  match field_file_location W results with
  | Some loc => plot_field loc ls
  | None => ret tt
  end.

(** The whole notebook; it ends with the component and the results. *)
Definition notebook : Nb (Component G * Results W) :=
  let! _ := cell_setup in
  let! (ls, ms) := cell_metadata in
  let! _ := cell_function in
  let! c := cell_geometry in
  let! results := cell_solver c ls ms in
  let! _ := cell_plot results ls in
  ret (c, results).

End Notebook.

(** ** A small concrete library and world

    A stand-in for gdsfactory in which a component is the list of layers
    its shapes lie on together with its ports, used to run the embedding
    on concrete inputs. *)
Module Toy.

Record port : Type := mkPort {
  pname : string;
  px : Q;
  py : Q;
  pdeg : Q
}.

Record comp : Type := mkComp {
  shapes : list LayerSpec;
  cports : list port
}.

Definition rename (i : nat) (p : port) : port :=
  {| pname := "o" +:+ pretty (S i); px := px p; py := py p; pdeg := pdeg p |}.

Definition shift (p : port) (d : Q * Q) : port :=
  {| pname := pname p; px := (px p + fst d)%Q; py := (py p + snd d)%Q;
     pdeg := pdeg p |}.

Definition turn (p : port) : port :=
  {| pname := pname p; px := px p; py := py p;
     pdeg := (if Qle_bool 180 (pdeg p) then pdeg p - 180 else pdeg p + 180)%Q |}.

Definition capacitor (fingers : Z) (finger_length finger_gap th : Q)
    (lay : LayerSpec) : comp :=
  {| shapes := [lay];
     cports := [ {| pname := "o1"; px := 0; py := 0; pdeg := 180 |};
                 {| pname := "o2"; px := 50; py := 0; pdeg := 0 |} ] |}.

Definition named (ps : list port) : list (string * port) :=
  map (fun p => (pname p, p)) ps.

Definition gds : Gdsfactory :=
  {| Component := comp;
     ComponentReference := comp;
     Port := port;
     Polygon := unit;
     Route := port * port * CrossSection;
     default_fingers := 4;
     default_finger_length := 20;
     default_finger_gap := 2;
     default_thickness := 5;
     default_layer := LayerStr "WG";
     new_component := fun _ => {| shapes := []; cports := [] |};
     interdigital_capacitor := capacitor;
     bbox := fun _ lay => {| shapes := [lay]; cports := [] |};
     boolean := fun _ _ _ lay => {| shapes := [lay]; cports := [] |};
     ref_center := fun c => c;
     add := fun c refs =>
       {| shapes := shapes c ++ concat (map shapes refs); cports := cports c |};
     lshift := fun c x =>
       ({| shapes := shapes c ++ shapes x; cports := cports c |}, x);
     add_polygon := fun c _ lay =>
       {| shapes := shapes c ++ [lay]; cports := cports c |};
     offset := fun _ _ lay => {| shapes := [lay]; cports := [] |};
     add_port := fun c p => {| shapes := shapes c; cports := cports c ++ [p] |};
     add_ports := fun c ps =>
       {| shapes := shapes c; cports := cports c ++ map snd ps |};
     auto_rename_ports := fun c =>
       {| shapes := shapes c; cports := imap rename (cports c) |};
     flatten := fun c => c;
     ports := fun c => named (cports c);
     get_ports_list := cports;
     ref_ports := fun r => named (cports r);
     get_polygon_enclosure := fun _ => tt;
     movex := fun c r _ => (c, r);
     move := fun c r _ => (c, r);
     orientation := pdeg;
     port_copy := fun p => p;
     port_move := shift;
     port_flip := turn;
     move_copy := shift;
     get_route := fun p1 p2 x => (p1, p2, x);
     references := fun r =>
       [ {| shapes := x_layer (snd r) :: map s_layer (x_sections (snd r));
            cports := [] |} ];
     route_ports := fun r => (turn (fst (fst r)), turn (snd (fst r))) |}.

(** A solver that writes a field file or not, as told. *)
Definition world (field_file : option Path) : World gds :=
  {| Results := option Path;
     Mesh := Path;
     getcwd := "/home/user";
     run_capacitive_simulation_elmer := fun _ => field_file;
     field_file_location := fun r => r;
     pv_read := fun p => p;
     slice_orthogonal := fun m _ => m |}.

End Toy.

(** ** Readings of a log *)

(** The routes requested: source port, target port, cross-section. *)
Definition routes_of {G} (e : Call G)
  : list (Port G * Port G * CrossSection) :=
  match e with CGetRoute p1 p2 x => [(p1, p2, x)] | _ => [] end.

(** The port displacements: the port moved and the vector. *)
Definition port_moves_of {G} (e : Call G) : list (Port G * (Q * Q)) :=
  match e with CPortMove p d => [(p, d)] | _ => [] end.

(** The calls that change the ports of a component. *)
Inductive PortOp (G : Gdsfactory) : Type :=
| AddedPort (p : Port G)
| AddedPorts (ps : list (string * Port G))
| Renamed.
Arguments AddedPort {G}.
Arguments AddedPorts {G}.
Arguments Renamed {G}.

Definition port_ops_of {G} (e : Call G) : list (PortOp G) :=
  match e with
  | CAddPort _ p => [AddedPort p]
  | CAddPorts _ ps => [AddedPorts ps]
  | CAutoRenamePorts _ => [Renamed]
  | _ => []
  end.

(** The boolean operations, with all their arguments. *)
Definition booleans_of {G} (e : Call G)
  : list (Component G * Operand (Component G) * string * LayerSpec) :=
  match e with CBoolean A B op lay => [(A, B, op, lay)] | _ => [] end.

(** The shapes a call draws, each with the layer it is drawn on.  A route
    draws what its cross-section says: the trace on the cross-section's
    own layer and one strip per section on that section's layer. *)
Inductive Shape : Type :=
| ShCapacitor
| ShTrace
| ShGapSection
| ShBox (b : Box)
| ShPolygon
| ShOffset
| ShBoolean.

Definition shapes_of {G} (e : Call G) : list (Shape * LayerSpec) :=
  match e with
  | CInterdigitalCapacitor _ _ _ _ lay => [(ShCapacitor, lay)]
  | CGetRoute _ _ x =>
      (ShTrace, x_layer x) :: map (fun s => (ShGapSection, s_layer s)) (x_sections x)
  | CBbox b lay => [(ShBox b, lay)]
  | CAddPolygon _ _ lay => [(ShPolygon, lay)]
  | COffset _ _ lay => [(ShOffset, lay)]
  | CBoolean _ _ _ lay => [(ShBoolean, lay)]
  | _ => []
  end.

(** The arguments of the solver calls of a notebook trace. *)
Definition solver_args_of {G W} (e : Event G W) : list (SolverArgs G) :=
  match e with EvRunCapacitiveSimulationElmer a => [a] | _ => [] end.

(** The calls on the component under construction and on the references
    it holds, each with its receiver: [c.add(refs)], [c << x],
    [ref.movex(dx)], [ref.move(destination)], [c.add_port(p)] and
    [c.auto_rename_ports()]. *)
Definition add_calls_of {G} (e : Call G)
  : list (Component G * list (ComponentReference G)) :=
  match e with CAdd c refs => [(c, refs)] | _ => [] end.

Definition lshift_calls_of {G} (e : Call G)
  : list (Component G * Component G) :=
  match e with CLshift c x => [(c, x)] | _ => [] end.

Definition movex_calls_of {G} (e : Call G)
  : list (ComponentReference G * Q) :=
  match e with CMovex r dx => [(r, dx)] | _ => [] end.

Definition move_calls_of {G} (e : Call G)
  : list (ComponentReference G * Port G) :=
  match e with CMove r destination => [(r, destination)] | _ => [] end.

Definition add_port_calls_of {G} (e : Call G)
  : list (Component G * Port G) :=
  match e with CAddPort c p => [(c, p)] | _ => [] end.

Definition rename_calls_of {G} (e : Call G) : list (Component G) :=
  match e with CAutoRenamePorts c => [c] | _ => [] end.

(** The components [flatten] is called on: among geometry calls, and in
    a notebook trace. *)
Definition flattened_of {G} (e : Call G) : list (Component G) :=
  match e with CFlatten c => [c] | _ => [] end.

Definition flattens_of {G W} (e : Event G W) : list (Component G) :=
  match e with EvGf c => flattened_of c | _ => [] end.

(** The boxes drawn, with their layers. *)
Definition boxes_of {G} (e : Call G) : list (Box * LayerSpec) :=
  match e with CBbox b lay => [(b, lay)] | _ => [] end.

(** The keys of the per-port entries of [resolutions]. *)
Definition port_key (port : string) : string :=
  "bw" +:+ delimiter +:+ port.

(** The library function or method a call is a call of. *)
Definition name_of {G} (e : Call G) : string :=
  match e with
  | CComponent _ => "Component"
  | CInterdigitalCapacitor _ _ _ _ _ => "interdigital_capacitor"
  | CRefCenter _ => "ref_center"
  | CAdd _ _ => "add"
  | CGetPortsList _ => "get_ports_list"
  | CPortCopy _ => "copy"
  | CPortMove _ _ => "move"
  | CPortFlip _ => "flip"
  | CSection _ => "Section"
  | CCrossSection _ => "CrossSection"
  | CGetRoute _ _ _ => "get_route"
  | CBbox _ _ => "bbox"
  | CLshift _ _ => "<<"
  | CMovex _ _ => "movex"
  | CMoveCopy _ _ => "move_copy"
  | CMove _ _ => "move"
  | CAddPort _ _ => "add_port"
  | CAddPorts _ _ => "add_ports"
  | CAutoRenamePorts _ => "auto_rename_ports"
  | CGetPolygonEnclosure _ => "get_polygon_enclosure"
  | CAddPolygon _ _ _ => "add_polygon"
  | COffset _ _ _ => "offset"
  | CBoolean _ _ _ _ => "boolean"
  | CFlatten _ => "flatten"
  end.

(** The calls of one iteration of the port loop, by name; [shifted] says
    whether the termination box is shifted with [movex]. *)
Definition iteration_names (shifted : bool) : list string :=
  [ "copy"; "move"; "flip"; "Section"; "Section"; "CrossSection";
    "get_route"; "add"; "bbox"; "<<" ]
  ++ (if shifted then ["movex"] else [])
  ++ [ "move_copy"; "move"; "add_port"; "auto_rename_ports" ].

(** ** Runs of the loop, runs that return and runs that raise *)

(** [Loops body xs s l s']: running [body] over [xs] from state [s] goes
    through without exception, logs [l] and ends in state [s']. *)
Inductive Loops {E X S} (body : X -> S -> M E S)
  : list X -> S -> list E -> S -> Prop :=
| Loops_nil s : Loops body [] s [] s
| Loops_cons x xs s l1 s1 l2 s2 :
    body x s = (l1, inr s1) ->
    Loops body xs s1 l2 s2 ->
    Loops body (x :: xs) s (l1 ++ l2) s2.

(** [m] makes the calls [l] and returns [a]. *)
Definition returns {E A} (m : M E A) (l : list E) (a : A) : Prop :=
  m = (l, inr a).

(** [m] makes the calls [l] and then raises [x]. *)
Definition raises {E A} (m : M E A) (l : list E) (x : Exn) : Prop :=
  m = (l, inl x).

(** ** The parts of a run of [interdigital_capacitor_enclosed] *)

(** The end port of the route built for [port]: [route.ports[-1]]. *)
Definition end_port (G : Gdsfactory) (a b : Q)
    (metal_layer gap_layer : LayerSpec) (port : Port G) : Port G :=
  snd (route_ports G
         (get_route G port (far_port G port)
            (cpw_cross_section a b metal_layer gap_layer))).

(** The termination box: [[[0, 0], [cpw_b, cpw_a + 2 * cpw_b]]]. *)
Definition term_box (a b : Q) : Box := ((0, 0), (b, a + 2 * b))%Q.

(** A shape lies on one of the two layers of the function. *)
Definition on_two_layers (metal_layer gap_layer : LayerSpec)
    (sl : Shape * LayerSpec) : Prop :=
  snd sl = metal_layer \/ snd sl = gap_layer.

Section EnclosedParts.
Context (G : Gdsfactory).
Variables (enclosure_box : Box) (fingers : Z)
  (finger_length finger_gap thickness gap_to_ground : Q)
  (metal_layer gap_layer : LayerSpec).

(** [cap]: the centred reference to the inner capacitor. *)
Definition inner_capacitor : ComponentReference G :=
  ref_center G
    (interdigital_capacitor G fingers finger_length finger_gap thickness
       metal_layer).

(** [cap.get_ports_list()] *)
Definition capacitor_ports : list (Port G) :=
  get_ports_list G inner_capacitor.

(** [c] when the loop starts: the fresh component holding [cap]. *)
Definition start_component : Component G :=
  add G (new_component G None) [inner_capacitor].

(** The calls made before the loop. *)
Definition prologue : list (Call G) :=
  [ CComponent None;
    CInterdigitalCapacitor fingers finger_length finger_gap thickness
      metal_layer;
    CRefCenter (interdigital_capacitor G fingers finger_length finger_gap
                  thickness metal_layer);
    CAdd (new_component G None) [inner_capacitor];
    CComponent None;
    CGetPortsList inner_capacitor ].

(** The enclosing polygon, on the gap layer, grown by [gap_to_ground]. *)
Definition grown_enclosure : Component G :=
  offset G
    (add_polygon G (new_component G None)
       (get_polygon_enclosure G inner_capacitor) gap_layer)
    gap_to_ground gap_layer.

(** [gap] and [ground] as the last lines compute them from the component
    [c] the loop leaves. *)
Definition trench (c : Component G) : Component G :=
  boolean G grown_enclosure (One c) "A-B" gap_layer.

Definition ground_plane (c : Component G) : Component G :=
  boolean G (bbox G enclosure_box metal_layer) (Many [c; trench c]) "A-B"
    metal_layer.

(** The returned component: [c] with the ground plane, flattened. *)
Definition finished (c : Component G) : Component G :=
  flatten G (fst (lshift G c (ground_plane c))).

(** The calls made after the loop. *)
Definition epilogue (c : Component G) : list (Call G) :=
  [ CGetPolygonEnclosure inner_capacitor;
    CAddPolygon (new_component G None)
      (get_polygon_enclosure G inner_capacitor) gap_layer;
    COffset (add_polygon G (new_component G None)
               (get_polygon_enclosure G inner_capacitor) gap_layer)
      gap_to_ground gap_layer;
    CBoolean grown_enclosure (One c) "A-B" gap_layer;
    CBbox enclosure_box metal_layer;
    CBoolean (bbox G enclosure_box metal_layer) (Many [c; trench c]) "A-B"
      metal_layer;
    CLshift c (ground_plane c);
    CFlatten (fst (lshift G c (ground_plane c))) ].

End EnclosedParts.

(** ** One iteration of the port loop, as a function of the component *)

Section IterationParts.
Context (G : Gdsfactory).
Variables (a b : Q) (metal_layer gap_layer : LayerSpec).

(** [route]: the route from [port] to its far port. *)
Definition port_route (port : Port G) : Route G :=
  get_route G port (far_port G port)
    (cpw_cross_section a b metal_layer gap_layer).

(** [c] after [c.add(route.references)]. *)
Definition with_route (port : Port G) (c : Component G) : Component G :=
  add G c (references G (port_route port)).

(** [c] and [term] after [term = c << bbox(...)]. *)
Definition with_box (port : Port G) (c : Component G)
  : Component G * ComponentReference G :=
  lshift G (with_route port c) (bbox G (term_box a b) gap_layer).

(** [c] and [term] after [if direction < 0: term.movex(-cpw_b)]. *)
Definition box_shifted (port : Port G) (c : Component G)
  : Component G * ComponentReference G :=
  if Qgtb (orientation G port) 0
  then movex G (fst (with_box port c)) (snd (with_box port c)) (- b)%Q
  else with_box port c.

(** The destination of [term.move]. *)
Definition box_destination (port : Port G) : Port G :=
  move_copy G (snd (route_ports G (port_route port)))
    (-1 * 0, -1 * (a / 2 + b))%Q.

(** [c] and [term] after [term.move(destination=...)]. *)
Definition box_moved (port : Port G) (c : Component G)
  : Component G * ComponentReference G :=
  move G (fst (box_shifted port c)) (snd (box_shifted port c))
    (box_destination port).

(** [c] after [c.add_port(route.ports[-1])]. *)
Definition with_port (port : Port G) (c : Component G) : Component G :=
  add_port G (fst (box_moved port c)) (snd (route_ports G (port_route port))).

(** [c] at the end of the iteration, after [c.auto_rename_ports()]. *)
Definition after_iteration (port : Port G) (c : Component G) : Component G :=
  auto_rename_ports G (with_port port c).

(** The iterations of the loop: each port with the component it finds. *)
Fixpoint iterations (ports : list (Port G)) (c : Component G)
  : list (Port G * Component G) :=
  match ports with
  | [] => []
  | port :: rest => (port, c) :: iterations rest (after_iteration port c)
  end.

(** [c] when the loop is over. *)
Definition after_loop (ports : list (Port G)) (c : Component G)
  : Component G :=
  foldl (fun c port => after_iteration port c) c ports.

End IterationParts.

(** What the count of ports needs of the library: a fresh component has no
    port, [add_port] adds one, and none of the other methods the function
    calls on [c] changes how many there are. *)
Record PortsContract (G : Gdsfactory) : Prop := mkPortsContract {
  ports_new : ports G (new_component G None) = [];
  ports_add : forall c rs,
    length (ports G (add G c rs)) = length (ports G c);
  ports_lshift : forall c x,
    length (ports G (fst (lshift G c x))) = length (ports G c);
  ports_movex : forall c r dx,
    length (ports G (fst (movex G c r dx))) = length (ports G c);
  ports_move : forall c r d,
    length (ports G (fst (move G c r d))) = length (ports G c);
  ports_add_port : forall c p,
    length (ports G (add_port G c p)) = S (length (ports G c));
  ports_auto_rename : forall c,
    length (ports G (auto_rename_ports G c)) = length (ports G c);
  ports_flatten : forall c,
    length (ports G (flatten G c)) = length (ports G c)
}.

(** ** The parts of a run of the notebook *)

Section NotebookParts.
Context {G : Gdsfactory} (W : World G).

(** The component the geometry cell leaves in [c], from the component
    [enclosed] the cell function returned. *)
Definition placed (enclosed : Component G) : Component G * ComponentReference G :=
  lshift G (new_component G (Some "capacitance_elmer")) enclosed.

Definition with_substrate (enclosed : Component G) : Component G :=
  fst (lshift G
         (add_ports G (fst (placed enclosed))
            (ref_ports G (snd (placed enclosed))))
         (bbox G simulation_box (LAYER "WAFER"))).

(** The steps of each cell. *)
Definition setup_log : list (Event G W) :=
  [EvRichOutput; EvGetGenericPdk; EvAssign "PDK"; EvActivate].

Definition metadata_log : list (Event G W) :=
  [ EvLayerLevel substrate_level; EvLayerLevel bw_level;
    EvLayerStack layer_stack;
    EvAssign "layer_stack"; EvAssign "material_spec" ].

Definition function_log : list (Event G W) :=
  [ EvSignature; EvAssign "INTERDIGITAL_DEFAULTS";
    EvDef "interdigital_capacitor_enclosed" ].

Definition geometry_log (calls : list (Call G)) (enclosed : Component G)
  : list (Event G W) :=
  [ EvAssign "simulation_box";
    EvGf (CComponent (Some "capacitance_elmer"));
    EvAssign "c" ]
  ++ map EvGf calls
  ++ [ EvGf (CLshift (new_component G (Some "capacitance_elmer")) enclosed);
       EvAssign "cap";
       EvGf (CAddPorts (fst (placed enclosed))
               (ref_ports G (snd (placed enclosed))));
       EvGf (CBbox simulation_box (LAYER "WAFER"));
       EvAssign "substrate";
       EvGf (CLshift (add_ports G (fst (placed enclosed))
                        (ref_ports G (snd (placed enclosed))))
               (bbox G simulation_box (LAYER "WAFER")));
       EvGf (CFlatten (with_substrate enclosed)) ].

(** The arguments of the solver call and its result, for the component
    [c]. *)
Definition the_solver_args (c : Component G) : SolverArgs G :=
  solver_args c layer_stack material_spec
    (PathJoin (PathOf (getcwd W)) "tmp").

Definition the_results (c : Component G) : Results W :=
  run_capacitive_simulation_elmer W (the_solver_args c).

(** The steps of the solver cell before the call: the arguments. *)
Definition arguments_log : list (Event G W) :=
  [ EvKeyword "layer_stack"; EvKeyword "material_spec";
    EvKeyword "n_processes"; EvKeyword "element_order";
    EvGetcwd; EvPath (PathJoin (PathOf (getcwd W)) "tmp");
    EvKeyword "simulation_folder";
    EvAssign "delimiter"; EvKeyword "mesh_parameters" ].

Definition solver_log (c : Component G) : list (Event G W) :=
  arguments_log
  ++ [ EvRunCapacitiveSimulationElmer (the_solver_args c);
       EvAssign "results"; EvPrint (the_results c) ].

(** The plotting steps for a field file at [loc]. *)
Definition plot_log (loc : Path) : list (Event G W) :=
  let z := PyMul (PyInt 500) (PyFloat 1 (-6)) in
  [ EvPvRead loc; EvAssign "field";
    EvSliceOrthogonal (pv_read W loc) z; EvAssign "slice";
    EvPlotter; EvAssign "p";
    EvAddMesh (slice_orthogonal W (pv_read W loc) z) "electric field" "turbo";
    EvShowGrid; EvSetCameraPosition "xy"; EvEnableParallelProjection;
    EvShow ].

Definition last_cell_log (results : Results W) : list (Event G W) :=
  match field_file_location W results with
  | Some loc => plot_log loc
  | None => []
  end.

End NotebookParts.

(** ** Laws of the log *)

Lemma bind_returns {E A B} (m : M E A) (k : A -> M E B) l a :
  m = (l, inr a) -> bind m k = (l ++ fst (k a), snd (k a)).
Proof. intros ->. unfold bind. now destruct (k a). Qed.

Lemma bind_raises {E A B} (m : M E A) (k : A -> M E B) l x :
  m = (l, inl x) -> bind m k = (l, inl x).
Proof. now intros ->. Qed.

Section ForEach.
Context {E X S : Type} (body : X -> S -> M E S).

Lemma Loops_for_each xs s l s' :
  Loops body xs s l s' -> for_each body xs s = (l, inr s').
Proof.
  induction 1 as [|x xs s l1 s1 l2 s2 Hb _ IH]; [reflexivity|].
  cbn [for_each]. rewrite (bind_returns _ _ _ _ Hb), IH. reflexivity.
Qed.

Lemma for_each_total :
  (forall x s, exists l s', body x s = (l, inr s')) ->
  forall xs s, exists l s', Loops body xs s l s'.
Proof.
  intros Hbody xs. induction xs as [|x xs IH]; intros s.
  - exists [], s. constructor.
  - destruct (Hbody x s) as (l1 & s1 & Hb).
    destruct (IH s1) as (l2 & s2 & Hl).
    exists (l1 ++ l2), s2. econstructor; eassumption.
Qed.

Lemma for_each_Loops xs s l s' :
  for_each body xs s = (l, inr s') -> Loops body xs s l s'.
Proof.
  revert s l. induction xs as [|x xs IH]; intros s l H.
  - injection H as <- <-. constructor.
  - cbn [for_each] in H. destruct (body x s) as [l1 [e|s1]] eqn:Hb.
    + discriminate H.
    + rewrite (bind_returns _ _ l1 s1 eq_refl) in H.
      destruct (for_each body xs s1) as [l2 [e|s2]] eqn:Hf;
        cbn in H; [discriminate H|].
      injection H as <- <-. econstructor; [exact Hb|]. now apply IH.
Qed.

(** A reading of the log that is the same at every iteration adds up. *)
Lemma Loops_flat_map {T} (f : E -> list T) (g : X -> list T) :
  (forall x s l s', body x s = (l, inr s') -> flat_map f l = g x) ->
  forall xs s l s', Loops body xs s l s' ->
    flat_map f l = flat_map g xs.
Proof.
  intros Hf xs s l s' H.
  induction H as [|x xs s l1 s1 l2 s2 Hb _ IH]; [reflexivity|].
  rewrite flat_map_app, IH, (Hf _ _ _ _ Hb). reflexivity.
Qed.

(** A measure of the state that every iteration raises by one. *)
Lemma Loops_count (n : S -> nat) :
  (forall x s l s', body x s = (l, inr s') -> n s' = Datatypes.S (n s)) ->
  forall xs s l s', Loops body xs s l s' ->
    n s' = (length xs + n s)%nat.
Proof.
  intros Hn xs s l s' H.
  induction H as [|x xs s l1 s1 l2 s2 Hb _ IH]; [reflexivity|].
  rewrite IH, (Hn _ _ _ _ Hb). cbn [length]. lia.
Qed.

(** A property of the logged calls that holds whether or not the loop
    runs to its end. *)
Lemma for_each_Forall (P : E -> Prop) :
  (forall x s, Forall P (fst (body x s))) ->
  forall xs s, Forall P (fst (for_each body xs s)).
Proof.
  intros HP xs. induction xs as [|x xs IH]; intros s; [constructor|].
  cbn [for_each]. specialize (HP x s).
  destruct (body x s) as [l1 [e|s1]]; cbn in *; [assumption|].
  specialize (IH s1). destruct (for_each body xs s1) as [l2 r]. cbn in *.
  apply Forall_app; split; assumption.
Qed.

End ForEach.

(** ** One iteration of the port loop *)

Section LoopBody.
Context (G : Gdsfactory).
Variables (a b : Q) (metal_layer gap_layer : LayerSpec).

(** What the body logs and returns, written out: the calls of one
    iteration are the same but for the [movex], made when the direction is
    negative. *)
Ltac run_body :=
  unfold loop_body; cbn;
  destruct (direction_of _ _ <? 0)%Z; cbn.

Ltac run_body_in H :=
  unfold loop_body in H; cbn in H;
  destruct (direction_of _ _ <? 0)%Z; cbn in H;
  injection H as <- <-.

Lemma loop_body_total port c :
  exists l c', loop_body G [a; b] metal_layer gap_layer port c = (l, inr c').
Proof. run_body; eauto. Qed.

Lemma loop_body_routes port c l c' :
  loop_body G [a; b] metal_layer gap_layer port c = (l, inr c') ->
  flat_map routes_of l
  = [(port, far_port G port, cpw_cross_section a b metal_layer gap_layer)].
Proof. intros H. run_body_in H; reflexivity. Qed.

Lemma loop_body_moves port c l c' :
  loop_body G [a; b] metal_layer gap_layer port c = (l, inr c') ->
  flat_map port_moves_of l = [(port_copy G port, displacement G port)].
Proof. intros H. run_body_in H; reflexivity. Qed.

Lemma loop_body_port_ops port c l c' :
  loop_body G [a; b] metal_layer gap_layer port c = (l, inr c') ->
  flat_map port_ops_of l
  = [AddedPort (end_port G a b metal_layer gap_layer port); Renamed].
Proof. intros H. run_body_in H; reflexivity. Qed.

Lemma loop_body_booleans port c l c' :
  loop_body G [a; b] metal_layer gap_layer port c = (l, inr c') ->
  flat_map booleans_of l = [].
Proof. intros H. run_body_in H; reflexivity. Qed.

Lemma loop_body_shapes port c l c' :
  loop_body G [a; b] metal_layer gap_layer port c = (l, inr c') ->
  flat_map shapes_of l
  = [(ShTrace, metal_layer); (ShGapSection, gap_layer);
     (ShGapSection, gap_layer); (ShBox (term_box a b), gap_layer)].
Proof. intros H. run_body_in H; reflexivity. Qed.

(** The displacement is 30 to the left for a port of positive orientation
    and 30 to the right otherwise. *)
Lemma displacement_outward port :
  displacement G port
  = (inject_Z (if Qgtb (orientation G port) 0 then -30 else 30), 0%Q).
Proof.
  unfold displacement, direction_of.
  destruct (Qgtb (orientation G port) 0); reflexivity.
Qed.

End LoopBody.

(** ** Runs that return and runs that raise *)

Lemma returns_ret {E A} (a : A) : returns (@ret E A a) [] a.
Proof. reflexivity. Qed.

Lemma returns_call {E A} (e : E) (a : A) : returns (call e a) [e] a.
Proof. reflexivity. Qed.

Lemma returns_bind {E A B} (m : M E A) (k : A -> M E B) l1 a l2 b :
  returns m l1 a -> returns (k a) l2 b -> returns (bind m k) (l1 ++ l2) b.
Proof.
  unfold returns. intros Hm Hk. rewrite (bind_returns _ _ _ _ Hm), Hk.
  reflexivity.
Qed.

Lemma raises_bind {E A B} (m : M E A) (k : A -> M E B) l1 a l2 x :
  returns m l1 a -> raises (k a) l2 x -> raises (bind m k) (l1 ++ l2) x.
Proof.
  unfold returns, raises. intros Hm Hk.
  rewrite (bind_returns _ _ _ _ Hm), Hk. reflexivity.
Qed.

Lemma raises_now {E A B} (m : M E A) (k : A -> M E B) l x :
  raises m l x -> raises (bind m k) l x.
Proof. unfold raises. intros ->. reflexivity. Qed.

Lemma returns_as {E A} (m : M E A) l a l' a' :
  returns m l a -> l = l' -> a = a' -> m = (l', inr a').
Proof. now intros -> <- <-. Qed.

Lemma raises_as {E A} (m : M E A) l x l' :
  raises m l x -> l = l' -> m = (l', inl x).
Proof. now intros -> <-. Qed.

(** Walk down a chain of binds whose steps are single calls. *)
Ltac walk :=
  repeat lazymatch goal with
    | |- returns (bind _ _) _ _ =>
        eapply returns_bind; [ first [ apply returns_call | eassumption ] | cbv beta zeta ]
    | |- returns (ret _) _ _ => apply returns_ret
    | |- returns _ _ _ => first [ apply returns_call | eassumption ]
    end.

(** ** The whole function *)

Section EnclosedRun.
Context (G : Gdsfactory).
Variables (enclosure_box : Box) (fingers : Z)
  (finger_length finger_gap thickness gap_to_ground : Q)
  (metal_layer gap_layer : LayerSpec).

(** With a loop that goes through, the function returns. *)
Lemma enclosed_returns cpw l c :
  for_each (loop_body G cpw metal_layer gap_layer)
    (capacitor_ports G fingers finger_length finger_gap thickness metal_layer)
    (start_component G fingers finger_length finger_gap thickness metal_layer)
  = (l, inr c) ->
  interdigital_capacitor_enclosed G enclosure_box fingers finger_length
    finger_gap thickness cpw gap_to_ground metal_layer gap_layer
  = (prologue G fingers finger_length finger_gap thickness metal_layer
       ++ l
       ++ epilogue G enclosure_box fingers finger_length finger_gap thickness
            gap_to_ground metal_layer gap_layer c,
     inr (finished G enclosure_box fingers finger_length finger_gap thickness
            gap_to_ground metal_layer gap_layer c)).
Proof.
  intros H.
  change (returns (for_each (loop_body G cpw metal_layer gap_layer)
                     (capacitor_ports G fingers finger_length finger_gap
                        thickness metal_layer)
                     (start_component G fingers finger_length finger_gap
                        thickness metal_layer)) l c) in H.
  unfold interdigital_capacitor_enclosed.
  eapply returns_as; [ walk | reflexivity | reflexivity ].
Qed.

(** With a loop that raises, the function raises the same exception, and
    nothing after the loop is called. *)
Lemma enclosed_raises cpw l x :
  for_each (loop_body G cpw metal_layer gap_layer)
    (capacitor_ports G fingers finger_length finger_gap thickness metal_layer)
    (start_component G fingers finger_length finger_gap thickness metal_layer)
  = (l, inl x) ->
  interdigital_capacitor_enclosed G enclosure_box fingers finger_length
    finger_gap thickness cpw gap_to_ground metal_layer gap_layer
  = (prologue G fingers finger_length finger_gap thickness metal_layer ++ l,
     inl x).
Proof.
  intros H.
  change (raises (for_each (loop_body G cpw metal_layer gap_layer)
                    (capacitor_ports G fingers finger_length finger_gap
                       thickness metal_layer)
                    (start_component G fingers finger_length finger_gap
                       thickness metal_layer)) l x) in H.
  unfold interdigital_capacitor_enclosed.
  eapply raises_as.
  - repeat (eapply raises_bind; [apply returns_call | cbv beta zeta]).
    apply raises_now. exact H.
  - reflexivity.
Qed.

End EnclosedRun.

(** ** The loop body for any [cpw_dimensions] *)

Section BodyAnyCpw.
Context (G : Gdsfactory).
Variables (cpw : list Q) (metal_layer gap_layer : LayerSpec).

Lemma loop_body_needs_pair port c l c' :
  loop_body G cpw metal_layer gap_layer port c = (l, inr c') ->
  exists a b, cpw = [a; b].
Proof.
  destruct cpw as [|x [|y [|z r]]]; unfold loop_body; cbn;
    intros H; try discriminate H; eauto.
Qed.

Lemma loop_body_raises port c :
  length cpw <> 2%nat ->
  exists msg,
    @unpack2 (Call G) cpw = raise (ValueError msg) /\
    loop_body G cpw metal_layer gap_layer port c
    = ([ CPortCopy port;
         CPortMove (port_copy G port) (displacement G port);
         CPortFlip (port_move G (port_copy G port) (displacement G port)) ],
       inl (ValueError msg)).
Proof.
  intros Hlen.
  destruct cpw as [|x [|y [|z r]]]; try (now elim Hlen);
    eexists; (split; [reflexivity|]); reflexivity.
Qed.

Lemma loop_body_layers port c :
  Forall (fun e => Forall (on_two_layers metal_layer gap_layer) (shapes_of e))
    (fst (loop_body G cpw metal_layer gap_layer port c)).
Proof.
  unfold on_two_layers.
  destruct cpw as [|x [|y [|z r]]]; unfold loop_body; cbn;
    try destruct (direction_of _ _ <? 0)%Z; cbn;
    repeat match goal with |- Forall _ _ => constructor end; cbn; auto.
Qed.

End BodyAnyCpw.

(** ** The component through the loop *)

Section IterationRun.
Context (G : Gdsfactory).
Variables (a b : Q) (metal_layer gap_layer : LayerSpec).

(** [direction < 0] is [port.orientation > 0]. *)
Lemma direction_negative port :
  (direction_of G port <? 0)%Z = Qgtb (orientation G port) 0.
Proof. unfold direction_of. now destruct (Qgtb (orientation G port) 0). Qed.

(** What one iteration does to the component, and on what its calls
    act. *)
Lemma loop_body_iteration port c l c' :
  loop_body G [a; b] metal_layer gap_layer port c = (l, inr c') ->
  c' = after_iteration G a b metal_layer gap_layer port c
  /\ flat_map add_calls_of l
     = [(c, references G (port_route G a b metal_layer gap_layer port))]
  /\ flat_map lshift_calls_of l
     = [(with_route G a b metal_layer gap_layer port c,
         bbox G (term_box a b) gap_layer)]
  /\ flat_map movex_calls_of l
     = (if Qgtb (orientation G port) 0
        then [(snd (with_box G a b metal_layer gap_layer port c), (- b)%Q)]
        else [])
  /\ flat_map move_calls_of l
     = [(snd (box_shifted G a b metal_layer gap_layer port c),
         box_destination G a b metal_layer gap_layer port)]
  /\ flat_map add_port_calls_of l
     = [(fst (box_moved G a b metal_layer gap_layer port c),
         snd (route_ports G (port_route G a b metal_layer gap_layer port)))]
  /\ flat_map rename_calls_of l
     = [with_port G a b metal_layer gap_layer port c]
  /\ flat_map boxes_of l = [(term_box a b, gap_layer)].
Proof.
  intros H. unfold loop_body in H; cbn in H.
  rewrite direction_negative in H.
  unfold after_iteration, with_port, box_moved, box_destination, box_shifted,
    with_box, with_route, port_route.
  destruct (Qgtb (orientation G port) 0); cbn in H;
    injection H as <- <-; repeat split; reflexivity.
Qed.

Lemma Loops_after_loop ports c l c' :
  Loops (loop_body G [a; b] metal_layer gap_layer) ports c l c' ->
  c' = after_loop G a b metal_layer gap_layer ports c.
Proof.
  induction 1 as [|port ports c l1 c1 l2 c2 Hb _ IH]; [reflexivity|].
  apply loop_body_iteration in Hb. destruct Hb as (-> & _).
  exact IH.
Qed.

(** A reading of the log that depends on the component an iteration
    finds adds up along the iterations. *)
Lemma Loops_iterations {T} (f : Call G -> list T)
    (g : Port G -> Component G -> list T) :
  (forall port c l c',
     loop_body G [a; b] metal_layer gap_layer port c = (l, inr c') ->
     flat_map f l = g port c) ->
  forall ports c l c',
    Loops (loop_body G [a; b] metal_layer gap_layer) ports c l c' ->
    flat_map f l
    = flat_map (fun pc => g (fst pc) (snd pc))
        (iterations G a b metal_layer gap_layer ports c).
Proof.
  intros Hf ports c l c' H.
  induction H as [|port ports c l1 c1 l2 c2 Hb _ IH]; [reflexivity|].
  rewrite flat_map_app, (Hf _ _ _ _ Hb).
  apply loop_body_iteration in Hb. destruct Hb as (-> & _).
  cbn [iterations flat_map fst snd]. now rewrite IH.
Qed.

End IterationRun.

(** ** Properties of [interdigital_capacitor_enclosed] *)

Lemma flat_map_single {A B} (h : A -> B) (xs : list A) :
  flat_map (fun x => [h x]) xs = map h xs.
Proof. induction xs as [|x xs IH]; cbn; [reflexivity | now rewrite IH]. Qed.

Lemma flat_map_nothing {A B} (xs : list A) :
  flat_map (fun _ => @nil B) xs = [].
Proof. induction xs as [|x xs IH]; cbn; auto. Qed.

(** With a two-element [cpw_dimensions] the loop goes through, whatever
    the ports of the capacitor, and so does the function. *)
Lemma enclosed_pair_run (G : Gdsfactory) (enclosure_box : Box) (fingers : Z)
    (finger_length finger_gap thickness a b gap_to_ground : Q)
    (metal_layer gap_layer : LayerSpec) :
  exists l c,
    Loops (loop_body G [a; b] metal_layer gap_layer)
      (capacitor_ports G fingers finger_length finger_gap thickness metal_layer)
      (start_component G fingers finger_length finger_gap thickness metal_layer)
      l c
    /\ interdigital_capacitor_enclosed G enclosure_box fingers finger_length
         finger_gap thickness [a; b] gap_to_ground metal_layer gap_layer
       = (prologue G fingers finger_length finger_gap thickness metal_layer
            ++ l
            ++ epilogue G enclosure_box fingers finger_length finger_gap
                 thickness gap_to_ground metal_layer gap_layer c,
          inr (finished G enclosure_box fingers finger_length finger_gap
                 thickness gap_to_ground metal_layer gap_layer c)).
Proof.
  destruct (for_each_total (loop_body G [a; b] metal_layer gap_layer)
              (loop_body_total G a b metal_layer gap_layer)
              (capacitor_ports G fingers finger_length finger_gap thickness
                 metal_layer)
              (start_component G fingers finger_length finger_gap thickness
                 metal_layer)) as (l & c & HL).
  exists l, c. split; [exact HL|].
  apply enclosed_returns, Loops_for_each, HL.
Qed.

(** C5. For every port of the inner capacitor the function requests one
    route, with the coplanar-waveguide cross-section, from that port to its
    flipped copy moved by -30 in x when the port's orientation is positive
    and by +30 otherwise (one move per port, by that vector); it adds the
    route's references to the component, and registers the route's last
    port on the component that holds them and the termination box, then
    renames the ports.  With [c] the component the loop leaves (the fresh
    component with the capacitor, taken through [after_iteration] port by
    port): the trench is the capacitor's enclosing polygon grown by
    [gap_to_ground] minus [c] (boolean "A-B"), the ground plane is the
    enclosure box minus [c] and the trench (boolean "A-B"), and the result
    is [c] with that ground plane, flattened. *)
Theorem geometry_is_routes_trench_ground
    (G : Gdsfactory) (enclosure_box : Box) (fingers : Z)
    (finger_length finger_gap thickness a b gap_to_ground : Q)
    (metal_layer gap_layer : LayerSpec) :
  let run := interdigital_capacitor_enclosed G enclosure_box fingers
               finger_length finger_gap thickness [a; b] gap_to_ground
               metal_layer gap_layer in
  let cap := ref_center G (interdigital_capacitor G fingers finger_length
                             finger_gap thickness metal_layer) in
  let x := cpw_cross_section a b metal_layer gap_layer in
  let target := fun port =>
    port_flip G (port_move G (port_copy G port)
      (inject_Z (if Qgtb (orientation G port) 0 then -30 else 30), 0%Q)) in
  let c0 := add G (new_component G None) [cap] in
  let its := iterations G a b metal_layer gap_layer (get_ports_list G cap) c0 in
  let c := after_loop G a b metal_layer gap_layer (get_ports_list G cap) c0 in
  flat_map routes_of (log run)
    = map (fun port => (port, target port, x)) (get_ports_list G cap)
  /\ flat_map port_moves_of (log run)
    = map (fun port =>
        (port_copy G port,
         (inject_Z (if Qgtb (orientation G port) 0 then -30 else 30), 0%Q)))
        (get_ports_list G cap)
  /\ flat_map port_ops_of (log run)
    = flat_map (fun port =>
        [AddedPort (snd (route_ports G (get_route G port (target port) x)));
         Renamed]) (get_ports_list G cap)
  /\ flat_map add_calls_of (log run)
    = (new_component G None, [cap])
      :: map (fun pc =>
           (snd pc, references G (get_route G (fst pc) (target (fst pc)) x)))
           its
  /\ flat_map add_port_calls_of (log run)
    = map (fun pc =>
        (fst (box_moved G a b metal_layer gap_layer (fst pc) (snd pc)),
         snd (route_ports G (get_route G (fst pc) (target (fst pc)) x))))
        its
  /\ flat_map rename_calls_of (log run)
    = map (fun pc =>
        add_port G
          (fst (box_moved G a b metal_layer gap_layer (fst pc) (snd pc)))
          (snd (route_ports G (get_route G (fst pc) (target (fst pc)) x))))
        its
  /\ let grown := offset G (add_polygon G (new_component G None)
                     (get_polygon_enclosure G cap) gap_layer)
                     gap_to_ground gap_layer in
     let gap := boolean G grown (One c) "A-B" gap_layer in
     let ground := boolean G (bbox G enclosure_box metal_layer)
                     (Many [c; gap]) "A-B" metal_layer in
     flat_map booleans_of (log run)
       = [ (grown, One c, "A-B", gap_layer);
           (bbox G enclosure_box metal_layer, Many [c; gap], "A-B",
            metal_layer) ]
     /\ outcome run = inr (flatten G (fst (lshift G c ground))).
Proof.
  intros run cap x target c0 its c.
  destruct (enclosed_pair_run G enclosure_box fingers finger_length finger_gap
              thickness a b gap_to_ground metal_layer gap_layer)
    as (l & c' & HL & Hrun).
  pose proof (Loops_after_loop G a b metal_layer gap_layer _ _ _ _ HL) as Hc.
  change (c' = c) in Hc. subst c'.
  pose proof (fun T f g Hf =>
                @Loops_iterations G a b metal_layer gap_layer T f g Hf
                  _ _ _ _ HL) as Hits.
  change (iterations G a b metal_layer gap_layer _ _) with its in Hits.
  assert (Htarget : forall port, far_port G port = target port).
  { intros port. unfold far_port, target.
    now rewrite displacement_outward. }
  assert (Hroute : forall port,
            port_route G a b metal_layer gap_layer port
            = get_route G port (target port) x).
  { intros port. unfold port_route. now rewrite Htarget. }
  subst run. rewrite Hrun. unfold log, outcome. cbn [fst snd].
  split; [|split; [|split; [|split; [|split; [|split; [|split]]]]]].
  - rewrite !flat_map_app.
    rewrite (Loops_flat_map _ routes_of
               (fun port => [(port, far_port G port, x)])
               (loop_body_routes G a b metal_layer gap_layer) _ _ _ _ HL).
    cbn. rewrite app_nil_r, flat_map_single.
    apply map_ext. intros port. now rewrite Htarget.
  - rewrite !flat_map_app.
    rewrite (Loops_flat_map _ port_moves_of
               (fun port => [(port_copy G port, displacement G port)])
               (loop_body_moves G a b metal_layer gap_layer) _ _ _ _ HL).
    cbn. rewrite app_nil_r, flat_map_single.
    apply map_ext. intros port. now rewrite displacement_outward.
  - rewrite !flat_map_app.
    rewrite (Loops_flat_map _ port_ops_of
               (fun port => [AddedPort (end_port G a b metal_layer gap_layer port);
                             Renamed])
               (loop_body_port_ops G a b metal_layer gap_layer) _ _ _ _ HL).
    cbn. rewrite app_nil_r.
    apply flat_map_ext. intros port. unfold end_port.
    now rewrite Htarget.
  - rewrite !flat_map_app.
    rewrite (Hits _ add_calls_of
               (fun port c1 =>
                  [(c1, references G
                          (port_route G a b metal_layer gap_layer port))])
               (fun port c1 l1 c2 H =>
                  proj1 (proj2
                    (loop_body_iteration G a b metal_layer gap_layer
                       port c1 l1 c2 H)))).
    cbn. rewrite app_nil_r, flat_map_single. f_equal.
    apply map_ext. intros pc. now rewrite Hroute.
  - rewrite !flat_map_app.
    rewrite (Hits _ add_port_calls_of
               (fun port c1 =>
                  [(fst (box_moved G a b metal_layer gap_layer port c1),
                    snd (route_ports G
                           (port_route G a b metal_layer gap_layer port)))])
               (fun port c1 l1 c2 H =>
                  proj1 (proj2 (proj2 (proj2 (proj2 (proj2
                    (loop_body_iteration G a b metal_layer gap_layer
                       port c1 l1 c2 H)))))))).
    cbn. rewrite app_nil_r, flat_map_single.
    apply map_ext. intros pc. now rewrite Hroute.
  - rewrite !flat_map_app.
    rewrite (Hits _ rename_calls_of
               (fun port c1 =>
                  [with_port G a b metal_layer gap_layer port c1])
               (fun port c1 l1 c2 H =>
                  proj1 (proj2 (proj2 (proj2 (proj2 (proj2 (proj2
                    (loop_body_iteration G a b metal_layer gap_layer
                       port c1 l1 c2 H))))))))).
    cbn. rewrite app_nil_r, flat_map_single.
    apply map_ext. intros pc. unfold with_port. now rewrite Hroute.
  - cbv zeta.
    rewrite !flat_map_app.
    rewrite (Loops_flat_map _ booleans_of (fun _ => [])
               (loop_body_booleans G a b metal_layer gap_layer) _ _ _ _ HL).
    cbn. rewrite flat_map_nothing. reflexivity.
  - reflexivity.
Qed.

(** Whether the loop goes through or raises, the log of the function is
    the prologue, the log of the loop and, if it went through, the
    epilogue. *)
Lemma enclosed_layers (G : Gdsfactory) (enclosure_box : Box) (fingers : Z)
    (finger_length finger_gap thickness : Q) (cpw : list Q)
    (gap_to_ground : Q) (metal_layer gap_layer : LayerSpec) :
  Forall (fun e => Forall (on_two_layers metal_layer gap_layer) (shapes_of e))
    (log (interdigital_capacitor_enclosed G enclosure_box fingers
            finger_length finger_gap thickness cpw gap_to_ground
            metal_layer gap_layer)).
Proof.
  pose proof (for_each_Forall (loop_body G cpw metal_layer gap_layer) _
                (loop_body_layers G cpw metal_layer gap_layer)
                (capacitor_ports G fingers finger_length finger_gap thickness
                   metal_layer)
                (start_component G fingers finger_length finger_gap thickness
                   metal_layer)) as Hloop.
  destruct (for_each _ _ _) as [l [x|c]] eqn:E; cbn [fst] in Hloop.
  - rewrite (enclosed_raises _ _ _ _ _ _ _ _ _ _ _ _ E). unfold log. cbn [fst].
    apply Forall_app; split; [|exact Hloop].
    unfold on_two_layers.
    repeat match goal with |- Forall _ _ => constructor end; cbn; auto.
  - rewrite (enclosed_returns _ _ _ _ _ _ _ _ _ _ _ _ E). unfold log. cbn [fst].
    apply Forall_app; split; [|apply Forall_app; split; [exact Hloop|]];
      unfold on_two_layers;
      repeat match goal with |- Forall _ _ => constructor end; cbn; auto.
Qed.

(** C6. Every shape the function draws lies on [metal_layer] or on
    [gap_layer], for any arguments; and when the call goes through the
    shapes are, in order: the capacitor on the metal layer; per capacitor
    port the waveguide trace on the metal layer, its two gap sections on
    the gap layer and the termination box on the gap layer; the gap
    region (polygon, offset, boolean) on the gap layer; the ground plane
    (box, boolean) on the metal layer. *)
Theorem shapes_on_metal_and_gap_layers
    (G : Gdsfactory) (enclosure_box : Box) (fingers : Z)
    (finger_length finger_gap thickness : Q) (cpw : list Q)
    (a b gap_to_ground : Q) (metal_layer gap_layer : LayerSpec) :
  let run := fun dims =>
    interdigital_capacitor_enclosed G enclosure_box fingers finger_length
      finger_gap thickness dims gap_to_ground metal_layer gap_layer in
  let cap := ref_center G (interdigital_capacitor G fingers finger_length
                             finger_gap thickness metal_layer) in
  Forall (fun sl => snd sl = metal_layer \/ snd sl = gap_layer)
    (flat_map shapes_of (log (run cpw)))
  /\ flat_map shapes_of (log (run [a; b]))
     = (ShCapacitor, metal_layer)
       :: flat_map (fun _ =>
            [ (ShTrace, metal_layer);
              (ShGapSection, gap_layer);
              (ShGapSection, gap_layer);
              (ShBox ((0, 0), (b, a + 2 * b))%Q, gap_layer) ])
            (get_ports_list G cap)
       ++ [ (ShPolygon, gap_layer); (ShOffset, gap_layer);
            (ShBoolean, gap_layer);
            (ShBox enclosure_box, metal_layer); (ShBoolean, metal_layer) ].
Proof.
  intros run cap. split.
  - subst run. cbv beta. apply Forall_flat_map.
    exact (enclosed_layers G enclosure_box fingers finger_length finger_gap
             thickness cpw gap_to_ground metal_layer gap_layer).
  - destruct (enclosed_pair_run G enclosure_box fingers finger_length
                finger_gap thickness a b gap_to_ground metal_layer gap_layer)
      as (l & c & HL & Hrun).
    subst run. cbv beta. rewrite Hrun. unfold log. cbn [fst].
    rewrite !flat_map_app.
    rewrite (Loops_flat_map _ shapes_of
               (fun _ => [ (ShTrace, metal_layer);
                           (ShGapSection, gap_layer);
                           (ShGapSection, gap_layer);
                           (ShBox (term_box a b), gap_layer) ])
               (loop_body_shapes G a b metal_layer gap_layer) _ _ _ _ HL).
    reflexivity.
Qed.

(** C7. Provided the inner capacitor has a port, the function returns
    exactly when [cpw_dimensions] has two elements: with two, the
    unpacking yields the pair and the call returns a component; with any
    other length the unpacking raises [ValueError], which ends the call
    in the first iteration, after the port copy, move and flip and before
    any route is requested. *)
Theorem cpw_dimensions_must_be_a_pair
    (G : Gdsfactory) (enclosure_box : Box) (fingers : Z)
    (finger_length finger_gap thickness : Q) (cpw : list Q)
    (gap_to_ground : Q) (metal_layer gap_layer : LayerSpec)
    (Hports : get_ports_list G
                (ref_center G (interdigital_capacitor G fingers finger_length
                                 finger_gap thickness metal_layer)) <> []) :
  let run := interdigital_capacitor_enclosed G enclosure_box fingers
               finger_length finger_gap thickness cpw gap_to_ground
               metal_layer gap_layer in
  if decide (length cpw = 2%nat)
  then exists a b r,
         @unpack2 (Call G) cpw = ret (a, b) /\ outcome run = inr r
  else exists msg,
         @unpack2 (Call G) cpw = raise (ValueError msg)
         /\ outcome run = inl (ValueError msg)
         /\ flat_map routes_of (log run) = []
         /\ flat_map port_ops_of (log run) = [].
Proof.
  intros run. destruct (decide (length cpw = 2%nat)) as [Hlen|Hlen].
  - destruct cpw as [|a [|b [|z r]]]; try discriminate Hlen.
    destruct (enclosed_pair_run G enclosure_box fingers finger_length
                finger_gap thickness a b gap_to_ground metal_layer gap_layer)
      as (l & c & _ & Hrun).
    exists a, b. eexists. split; [reflexivity|].
    subst run. rewrite Hrun. reflexivity.
  - fold (inner_capacitor G fingers finger_length finger_gap thickness
            metal_layer) in Hports.
    fold (capacitor_ports G fingers finger_length finger_gap thickness
            metal_layer) in Hports.
    destruct (capacitor_ports G fingers finger_length finger_gap thickness
                metal_layer) as [|p rest] eqn:Hps; [now elim Hports|].
    destruct (loop_body_raises G cpw metal_layer gap_layer p
                (start_component G fingers finger_length finger_gap thickness
                   metal_layer) Hlen) as (msg & Hun & Hbody).
    exists msg. split; [exact Hun|].
    assert (Hrun : run
      = (prologue G fingers finger_length finger_gap thickness metal_layer
           ++ [ CPortCopy p;
                CPortMove (port_copy G p) (displacement G p);
                CPortFlip (port_move G (port_copy G p) (displacement G p)) ],
         inl (ValueError msg))).
    { apply enclosed_raises. rewrite Hps. cbn [for_each].
      apply (bind_raises _ _ _ _ Hbody). }
    rewrite Hrun. repeat split.
Qed.

(** ** Ports of the returned component *)

(** One iteration leaves one port more. *)
Lemma loop_body_one_more_port (G : Gdsfactory) (HG : PortsContract G)
    (cpw : list Q) (metal_layer gap_layer : LayerSpec)
    (port : Port G) (c : Component G) l c' :
  loop_body G cpw metal_layer gap_layer port c = (l, inr c') ->
  length (ports G c') = S (length (ports G c)).
Proof.
  intros H. destruct (loop_body_needs_pair _ _ _ _ _ _ _ _ H) as (a & b & ->).
  destruct HG.
  unfold loop_body in H; cbn in H.
  destruct (direction_of _ _ <? 0)%Z; cbn in H; injection H as <- <-;
    now rewrite ?ports_auto_rename0, ?ports_add_port0, ?ports_move0,
      ?ports_movex0, ?ports_lshift0, ?ports_add0.
Qed.

(** One iteration requests one route, adds that route's last port and
    renames. *)
Lemma loop_body_adds_route_end (G : Gdsfactory)
    (cpw : list Q) (metal_layer gap_layer : LayerSpec)
    (port : Port G) (c : Component G) l c' :
  loop_body G cpw metal_layer gap_layer port c = (l, inr c') ->
  exists rt,
    flat_map routes_of l = [rt]
    /\ flat_map port_ops_of l
       = [ AddedPort (snd (route_ports G
                             (get_route G (fst (fst rt)) (snd (fst rt)) (snd rt))));
           Renamed ].
Proof.
  intros H. destruct (loop_body_needs_pair _ _ _ _ _ _ _ _ H) as (a & b & ->).
  rewrite (loop_body_routes _ _ _ _ _ _ _ _ _ H),
    (loop_body_port_ops _ _ _ _ _ _ _ _ _ H).
  eexists. split; reflexivity.
Qed.

(** Over a loop that goes through: as many routes as ports, and the port
    operations are, route by route, adding its last port and renaming. *)
Lemma Loops_ports (G : Gdsfactory) (cpw : list Q)
    (metal_layer gap_layer : LayerSpec) xs s l s' :
  Loops (loop_body G cpw metal_layer gap_layer) xs s l s' ->
  length (flat_map routes_of l) = length xs
  /\ flat_map port_ops_of l
     = flat_map (fun rt =>
         [ AddedPort (snd (route_ports G
                       (get_route G (fst (fst rt)) (snd (fst rt)) (snd rt))));
           Renamed ]) (flat_map routes_of l).
Proof.
  induction 1 as [|x xs s l1 s1 l2 s2 Hb _ [IHn IHo]]; [split; reflexivity|].
  destruct (loop_body_adds_route_end _ _ _ _ _ _ _ _ Hb) as (rt & Hr & Ho).
  rewrite !flat_map_app, Hr, Ho, IHo, length_app, IHn. split; reflexivity.
Qed.

(** C8. Under the library's port contract, whenever the function returns
    a component it has as many ports as the inner capacitor; the function
    requests one route per capacitor port, and the calls that touch ports
    are exactly, route by route, [add_port] of the route's last port
    followed by [auto_rename_ports]. *)
Theorem one_port_per_capacitor_port
    (G : Gdsfactory) (HG : PortsContract G)
    (enclosure_box : Box) (fingers : Z)
    (finger_length finger_gap thickness : Q) (cpw : list Q)
    (gap_to_ground : Q) (metal_layer gap_layer : LayerSpec)
    (r : Component G)
    (Haccepted :
       outcome (interdigital_capacitor_enclosed G enclosure_box fingers
                  finger_length finger_gap thickness cpw gap_to_ground
                  metal_layer gap_layer) = inr r) :
  let run := interdigital_capacitor_enclosed G enclosure_box fingers
               finger_length finger_gap thickness cpw gap_to_ground
               metal_layer gap_layer in
  let cap := ref_center G (interdigital_capacitor G fingers finger_length
                             finger_gap thickness metal_layer) in
  length (ports G r) = length (get_ports_list G cap)
  /\ length (flat_map routes_of (log run)) = length (get_ports_list G cap)
  /\ flat_map port_ops_of (log run)
     = flat_map (fun rt =>
         [ AddedPort (snd (route_ports G
                       (get_route G (fst (fst rt)) (snd (fst rt)) (snd rt))));
           Renamed ]) (flat_map routes_of (log run)).
Proof.
  intros run cap. subst run.
  destruct (for_each (loop_body G cpw metal_layer gap_layer)
              (capacitor_ports G fingers finger_length finger_gap thickness
                 metal_layer)
              (start_component G fingers finger_length finger_gap thickness
                 metal_layer)) as [l [x|c]] eqn:E.
  - rewrite (enclosed_raises _ _ _ _ _ _ _ _ _ _ _ _ E) in Haccepted.
    discriminate Haccepted.
  - rewrite (enclosed_returns _ _ _ _ _ _ _ _ _ _ _ _ E) in Haccepted |- *.
    injection Haccepted as <-.
    apply for_each_Loops in E.
    destruct (Loops_ports _ _ _ _ _ _ _ _ E) as [Hn Ho].
    pose proof (Loops_count _ (fun c => length (ports G c))
                  (loop_body_one_more_port G HG cpw metal_layer gap_layer)
                  _ _ _ _ E) as Hcount.
    cbv beta in Hcount. unfold start_component in Hcount.
    rewrite (ports_add G HG), (ports_new G HG) in Hcount.
    unfold log. cbn [fst]. rewrite !flat_map_app.
    change (flat_map routes_of (prologue _ _ _ _ _ _)) with
      (@nil (Port G * Port G * CrossSection)).
    change (flat_map routes_of (epilogue _ _ _ _ _ _ _ _ _ _)) with
      (@nil (Port G * Port G * CrossSection)).
    change (flat_map port_ops_of (prologue _ _ _ _ _ _)) with (@nil (PortOp G)).
    change (flat_map port_ops_of (epilogue _ _ _ _ _ _ _ _ _ _)) with
      (@nil (PortOp G)).
    rewrite !app_nil_r. cbn [app].
    repeat split.
    + unfold finished.
      rewrite (ports_flatten G HG), (ports_lshift G HG), Hcount.
      cbn [length]. unfold capacitor_ports, inner_capacitor, cap. lia.
    + exact Hn.
    + exact Ho.
Qed.

(** ** The concrete library meets the contract *)

Lemma toy_named_length (ps : list Toy.port) :
  length (Toy.named ps) = length ps.
Proof. unfold Toy.named. apply length_map. Qed.

Lemma toy_ports_contract : PortsContract Toy.gds.
Proof.
  constructor; cbn; intros; rewrite ?toy_named_length; cbn;
    rewrite ?length_app, ?length_imap; cbn; try reflexivity; lia.
Qed.

(** The capacitor of the concrete library has two ports, so a
    three-element [cpw_dimensions] stops the call at the unpacking. *)
Lemma cpw_dimensions_three_elements :
  exists msg,
    @unpack2 (Call Toy.gds) [10; 6; 7]%Q = raise (ValueError msg)
    /\ outcome (interdigital_capacitor_enclosed Toy.gds
                  ((-200, -200), (200, 200))%Q 4 20 2 5 [10; 6; 7]%Q 5
                  (LAYER "WG") (LAYER "DEEPTRENCH"))
       = inl (ValueError msg)
    /\ flat_map routes_of
         (log (interdigital_capacitor_enclosed Toy.gds
                 ((-200, -200), (200, 200))%Q 4 20 2 5 [10; 6; 7]%Q 5
                 (LAYER "WG") (LAYER "DEEPTRENCH"))) = []
    /\ flat_map port_ops_of
         (log (interdigital_capacitor_enclosed Toy.gds
                 ((-200, -200), (200, 200))%Q 4 20 2 5 [10; 6; 7]%Q 5
                 (LAYER "WG") (LAYER "DEEPTRENCH"))) = [].
Proof.
  refine (cpw_dimensions_must_be_a_pair Toy.gds
            ((-200, -200), (200, 200))%Q 4 20 2 5 [10; 6; 7]%Q 5
            (LAYER "WG") (LAYER "DEEPTRENCH") _).
  cbn. discriminate.
Defined.

(** With the defaults the concrete library returns a component with the
    capacitor's two ports. *)
Lemma enclosed_default_has_two_ports :
  exists r,
    outcome (interdigital_capacitor_enclosed Toy.gds
               ((-200, -200), (200, 200))%Q 4 20 2 5 [10; 6]%Q 5
               (LAYER "WG") (LAYER "DEEPTRENCH")) = inr r
    /\ length (ports Toy.gds r) = 2%nat.
Proof.
  eexists. split; [reflexivity|].
  exact (proj1 (one_port_per_capacitor_port Toy.gds toy_ports_contract
                  ((-200, -200), (200, 200))%Q 4 20 2 5 [10; 6]%Q 5
                  (LAYER "WG") (LAYER "DEEPTRENCH") _ eq_refl)).
Defined.

(** ** The run of the notebook *)

Section NotebookRun.
Context {G : Gdsfactory} (W : World G).

Lemma lift_returns {A} (m : M (Call G) A) l a :
  m = (l, inr a) -> returns (lift W m) (map EvGf l) a.
Proof. intros ->. reflexivity. Qed.

Lemma cell_geometry_returns calls enclosed :
  interdigital_capacitor_enclosed G simulation_box
    (default_fingers G) (default_finger_length G) (default_finger_gap G)
    (default_thickness G) [10; 6]%Q 5%Q (LAYER "WG") (LAYER "DEEPTRENCH")
  = (calls, inr enclosed) ->
  returns (cell_geometry W) (geometry_log W calls enclosed)
    (with_substrate enclosed).
Proof.
  intros H. apply lift_returns in H.
  unfold cell_geometry.
  eapply returns_as;
    [ repeat lazymatch goal with
        | |- returns (bind (lift _ (interdigital_capacitor_enclosed
                                      _ _ _ _ _ _ _ _ _ _)) _) _ _ =>
            eapply returns_bind; [ exact H | cbv beta zeta ]
        | |- returns (bind _ _) _ _ =>
            eapply returns_bind; [ apply returns_call | cbv beta zeta ]
        | |- returns (ret _) _ _ => apply returns_ret
        | |- returns _ _ _ => apply returns_call
        end
    | reflexivity | reflexivity ].
Qed.

Lemma slice_height_layer_stack :
  slice_height W layer_stack = ret (PyMul (PyInt 500) (PyFloat 1 (-6))).
Proof. reflexivity. Qed.

Lemma cell_plot_returns results :
  returns (cell_plot W results layer_stack) (last_cell_log W results) tt.
Proof.
  unfold cell_plot, last_cell_log.
  destruct (field_file_location W results) as [loc|]; [|reflexivity].
  unfold plot_field. rewrite slice_height_layer_stack. reflexivity.
Qed.

(** The notebook runs to its end, through these steps. *)
Lemma notebook_returns calls enclosed :
  interdigital_capacitor_enclosed G simulation_box
    (default_fingers G) (default_finger_length G) (default_finger_gap G)
    (default_thickness G) [10; 6]%Q 5%Q (LAYER "WG") (LAYER "DEEPTRENCH")
  = (calls, inr enclosed) ->
  notebook W
  = (setup_log W ++ metadata_log W ++ function_log W
       ++ geometry_log W calls enclosed
       ++ solver_log W (with_substrate enclosed)
       ++ last_cell_log W (the_results W (with_substrate enclosed)),
     inr (with_substrate enclosed, the_results W (with_substrate enclosed))).
Proof.
  intros H. apply cell_geometry_returns in H.
  pose proof (cell_plot_returns (the_results W (with_substrate enclosed)))
    as Hp.
  unfold notebook.
  eapply returns_as;
    [ eapply returns_bind; [reflexivity | cbv beta zeta];
      eapply returns_bind; [reflexivity | cbv beta zeta];
      eapply returns_bind; [reflexivity | cbv beta zeta];
      eapply returns_bind; [exact H | cbv beta zeta];
      eapply returns_bind; [reflexivity | cbv beta zeta];
      eapply returns_bind; [exact Hp | cbv beta zeta];
      apply returns_ret
    | rewrite !app_nil_r; reflexivity | reflexivity ].
Qed.

End NotebookRun.

(** ** Stages of a trace *)





Lemma geometry_log_phase {G} (W : World G) calls enclosed :
  Forall (fun e => phase_of e = Geometry) (geometry_log W calls enclosed).
Proof.
  unfold geometry_log.
  repeat apply Forall_app_2.
  - repeat constructor.
  - apply Forall_forall. intros e He.
    apply list_elem_of_In, in_map_iff in He. now destruct He as (x & <- & _).
  - repeat constructor.
Qed.

Lemma last_cell_log_phase {G} (W : World G) results :
  Forall (fun e => phase_of e = Visualization) (last_cell_log W results).
Proof.
  unfold last_cell_log.
  destruct (field_file_location W results); repeat constructor.
Qed.



(** The notebook runs to its end whatever the library and the solver
    answer. *)
Lemma notebook_run {G} (W : World G) :
  exists calls enclosed,
    notebook W
    = (setup_log W ++ metadata_log W ++ function_log W
         ++ geometry_log W calls enclosed
         ++ solver_log W (with_substrate enclosed)
         ++ last_cell_log W (the_results W (with_substrate enclosed)),
       inr (with_substrate enclosed,
            the_results W (with_substrate enclosed))).
Proof.
  destruct (enclosed_pair_run G simulation_box (default_fingers G)
              (default_finger_length G) (default_finger_gap G)
              (default_thickness G) 10 6 5 (LAYER "WG") (LAYER "DEEPTRENCH"))
    as (l & c & _ & Hrun).
  eexists _, _. apply notebook_returns. exact Hrun.
Qed.

(** ** The embedding at work on the concrete library *)

Example toy_enclosed_port_names :
  match outcome (interdigital_capacitor_enclosed Toy.gds
                   ((-200, -200), (200, 200))%Q 4 20 2 5 [10; 6]%Q 5
                   (LAYER "WG") (LAYER "DEEPTRENCH")) with
  | inr r => map fst (ports Toy.gds r)
  | inl _ => []
  end = ["o1"; "o2"].
Proof. vm_compute. reflexivity. Qed.

Example toy_enclosed_route_targets :
  map (fun rt => (Toy.px (snd (fst rt)), Toy.pdeg (snd (fst rt))))
    (flat_map routes_of
       (log (interdigital_capacitor_enclosed Toy.gds
               ((-200, -200), (200, 200))%Q 4 20 2 5 [10; 6]%Q 5
               (LAYER "WG") (LAYER "DEEPTRENCH"))))
  = [((-30)%Q, 0%Q); (80%Q, 180%Q)].
Proof. vm_compute. reflexivity. Qed.

Example toy_notebook_ends_with_show :
  last (log (notebook (Toy.world (Some (PathOf "field.pvtu")))))
  = Some EvShow.
Proof. vm_compute. reflexivity. Qed.

Example toy_resolutions_keys :
  dom (resolutions_of ["o1"; "o2"])
  = ({["bw"; "substrate"; "vacuum"; "bw__o1"; "bw__o2"]} : gset string).
Proof.
  unfold resolutions_of. cbn [foldl]. rewrite !dom_insert_L, dom_empty_L.
  set_solver.
Qed.

(** ** Properties of the notebook *)


Lemma solver_args_of_phase {G W} (ph : Phase) (t : list (Event G W)) :
  ph <> Solver ->
  Forall (fun e => phase_of e = ph) t ->
  flat_map solver_args_of t = [].
Proof.
  intros Hph H. induction H as [|e t He _ IH]; [reflexivity|].
  cbn [flat_map]. rewrite IH, app_nil_r.
  destruct e; cbn in He; try reflexivity. now elim Hph.
Qed.

(** The one solver call of a run: its arguments and what the run ends
    with. *)
Lemma notebook_solver_call {G} (W : World G) :
  exists steps c,
    returns (cell_geometry W) steps c
    /\ flat_map solver_args_of (log (notebook W)) = [the_solver_args W c]
    /\ outcome (notebook W) = inr (c, the_results W c).
Proof.
  destruct (enclosed_pair_run G simulation_box (default_fingers G)
              (default_finger_length G) (default_finger_gap G)
              (default_thickness G) 10 6 5 (LAYER "WG") (LAYER "DEEPTRENCH"))
    as (l & c0 & _ & Hencl).
  pose proof (cell_geometry_returns W _ _ Hencl) as Hgeo.
  pose proof (notebook_returns W _ _ Hencl) as Hrun.
  eexists _, _. split; [exact Hgeo|].
  rewrite Hrun. unfold log, outcome. cbn [fst snd].
  split; [|reflexivity].
  rewrite !flat_map_app.
  rewrite (solver_args_of_phase Geometry _ ltac:(discriminate)
             (geometry_log_phase W _ _)).
  rewrite (solver_args_of_phase Visualization _ ltac:(discriminate)
             (last_cell_log_phase W _)).
  reflexivity.
Qed.

(** C2. In every run the solver is called exactly once, its arguments
    are the component of the geometry cell, the layer stack, the material
    specification and the run and mesh parameters, and the [results] the
    notebook ends with are what that call returned; [material_spec] gives
    a relative permittivity to Si, Nb and vacuum and to nothing else. *)
Theorem physics_is_the_solver_call (G : Gdsfactory) (W : World G) :
  exists steps c,
    returns (cell_geometry W) steps c
    /\ let args :=
         {| arg_component := c;
            arg_layer_stack := layer_stack;
            arg_material_spec := material_spec;
            arg_n_processes := 4;
            arg_element_order := 1;
            arg_simulation_folder := PathJoin (PathOf (getcwd W)) "tmp";
            arg_mesh_parameters :=
              {| background_tag := "vacuum";
                 background_padding := [0; 0; 0; 0; 0; 700];
                 portnames := ports G c;
                 default_characteristic_length := 200;
                 layer_portname_delimiter := "__";
                 resolutions := resolutions_of (map fst (ports G c)) |} |} in
       flat_map solver_args_of (log (notebook W)) = [args]
       /\ outcome (notebook W)
          = inr (c, run_capacitive_simulation_elmer W args)
       /\ dom material_spec = ({["Si"; "Nb"; "vacuum"]} : gset string)
       /\ map_Forall (fun _ props => is_Some (props !! "relative_permittivity"))
            material_spec.
Proof.
  destruct (notebook_solver_call W) as (steps & c & Hgeo & Hargs & Hout).
  exists steps, c. split; [exact Hgeo|]. cbv zeta.
  split; [exact Hargs|]. split; [exact Hout|]. split.
  - unfold material_spec. rewrite !dom_insert_L, dom_empty_L. set_solver.
  - unfold material_spec.
    repeat apply map_Forall_insert_2; try apply map_Forall_empty;
      eexists; reflexivity.
Qed.

(** C3, as the specification has it (the plot is the last step of every
    run): with a solver that reports no field file the run makes no
    plotting step at all and ends with [print(results)]. *)
Lemma notebook_without_field_file_plots_nothing :
  filter (fun ph => ph = Visualization)
    (stages (log (notebook (Toy.world None)))) = []
  /\ exists results,
       last (log (notebook (Toy.world None))) = Some (EvPrint results).
Proof. split; [vm_compute; reflexivity|]. eexists. vm_compute. reflexivity. Qed.

(** C3, amended. After the solver call and [print(results)], the notebook
    looks at [results.field_file_location]: if it is a path, the last
    steps of the run read that file, slice the field orthogonally at z
    equal to the zmin of the "bw" layer times 1e-6, and plot the slice
    with the "electric field" scalars; if it is [None], the run ends
    with the print.  No plotting step comes earlier. *)
Theorem plot_after_solver_when_field_file (G : Gdsfactory) (W : World G) :
  exists before c,
    let results := run_capacitive_simulation_elmer W (the_solver_args W c) in
    let z := PyMul (zmin bw_level) (PyFloat 1 (-6)) in
    layers layer_stack !! "bw" = Some bw_level
    /\ zmin bw_level = PyInt 500
    /\ Forall (fun e => phase_of e <> Visualization) before
    /\ log (notebook W)
       = before
         ++ [ EvRunCapacitiveSimulationElmer (the_solver_args W c);
              EvAssign "results"; EvPrint results ]
         ++ match field_file_location W results with
            | Some loc =>
                [ EvPvRead loc; EvAssign "field";
                  EvSliceOrthogonal (pv_read W loc) z; EvAssign "slice";
                  EvPlotter; EvAssign "p";
                  EvAddMesh (slice_orthogonal W (pv_read W loc) z)
                    "electric field" "turbo";
                  EvShowGrid; EvSetCameraPosition "xy";
                  EvEnableParallelProjection; EvShow ]
            | None => []
            end.
Proof.
  destruct (notebook_run W) as (calls & enclosed & Hrun).
  exists (setup_log W ++ metadata_log W ++ function_log W
          ++ geometry_log W calls enclosed
          ++ arguments_log W),
         (with_substrate enclosed).
  cbv zeta. split; [reflexivity|]. split; [reflexivity|]. split.
  - rewrite !Forall_app.
    repeat split; try (repeat constructor; discriminate).
    eapply Forall_impl; [apply geometry_log_phase|].
    cbv beta. intros e ->. discriminate.
  - rewrite Hrun. unfold log, solver_log. cbn [fst].
    rewrite <- !app_assoc. reflexivity.
Qed.

(** C4. The layer stack passed to the one solver call is [layer_stack];
    it has the two entries "substrate" (layer WAFER, Si, thickness 500,
    zmin 0, mesh order 99) and "bw" (layer WG, Nb, thickness 200e-3,
    zmin 500, mesh order 2) and no other, and every entry has a
    material, a thickness and a zmin. *)
Theorem layer_stack_has_two_levels (G : Gdsfactory) (W : World G) :
  map arg_layer_stack (flat_map solver_args_of (log (notebook W)))
    = [layer_stack]
  /\ dom (layers layer_stack) = ({["substrate"; "bw"]} : gset string)
  /\ size (layers layer_stack) = 2%nat
  /\ layers layer_stack !! "substrate"
     = Some {| layer := LAYER "WAFER"; thickness := PyInt 500;
               zmin := PyInt 0; material := Some "Si"; mesh_order := 99 |}
  /\ layers layer_stack !! "bw"
     = Some {| layer := LAYER "WG"; thickness := PyFloat 200 (-3);
               zmin := PyInt 500; material := Some "Nb"; mesh_order := 2 |}
  /\ map_Forall (fun _ lvl =>
       exists m t z, material lvl = Some m /\ thickness lvl = t /\ zmin lvl = z)
       (layers layer_stack).
Proof.
  destruct (notebook_solver_call W) as (steps & c & _ & Hargs & _).
  rewrite Hargs. split; [reflexivity|].
  assert (Hdom : dom (layers layer_stack)
                 = ({["substrate"; "bw"]} : gset string)).
  { unfold layer_stack. cbn [layers].
    rewrite !dom_insert_L, dom_empty_L. set_solver. }
  split; [exact Hdom|]. split.
  - rewrite <- size_dom, Hdom. rewrite size_union by set_solver.
    now rewrite !size_singleton.
  - split; [reflexivity|]. split; [reflexivity|].
    unfold layer_stack. cbn [layers].
    repeat apply map_Forall_insert_2; try apply map_Forall_empty;
      do 3 eexists; repeat split; reflexivity.
Qed.

(** C9. In the layer stack the zmin of "bw" is the zmin of "substrate"
    plus the thickness of "substrate", as integers: 500 = 0 + 500. *)
Theorem bw_sits_on_substrate :
  exists sub bw,
    layers layer_stack !! "substrate" = Some sub
    /\ layers layer_stack !! "bw" = Some bw
    /\ zmin sub = PyInt 0 /\ thickness sub = PyInt 500 /\ zmin bw = PyInt 500
    /\ py_int_add (zmin sub) (thickness sub) = Some (zmin bw).
Proof. exists substrate_level, bw_level. repeat split; reflexivity. Qed.

(** ** Where the termination boxes go *)

(** X2. When the call goes through, one termination box is drawn per
    capacitor port, [cpw_b] wide and [cpw_a + 2 * cpw_b] high, on the gap
    layer, and placed with [<<] in the component that already holds the
    port's route; the reference that [<<] returns is the one shifted by
    [-cpw_b] in x, exactly for the ports of positive orientation, and the
    one then moved onto the route's last port displaced by
    [(0, -(cpw_a / 2 + cpw_b))].  The only other box is the enclosure,
    drawn last on the metal layer, whose difference with the component
    and the trench is the last thing placed. *)
Theorem termination_boxes_follow_the_routes
    (G : Gdsfactory) (enclosure_box : Box) (fingers : Z)
    (finger_length finger_gap thickness a b gap_to_ground : Q)
    (metal_layer gap_layer : LayerSpec) :
  let run := interdigital_capacitor_enclosed G enclosure_box fingers
               finger_length finger_gap thickness [a; b] gap_to_ground
               metal_layer gap_layer in
  let cap := ref_center G (interdigital_capacitor G fingers finger_length
                             finger_gap thickness metal_layer) in
  let cap_ports := get_ports_list G cap in
  let c0 := add G (new_component G None) [cap] in
  let its := iterations G a b metal_layer gap_layer cap_ports c0 in
  let c := after_loop G a b metal_layer gap_layer cap_ports c0 in
  let box := bbox G ((0, 0), (b, a + 2 * b))%Q gap_layer in
  flat_map boxes_of (log run)
    = map (fun _ => (((0, 0), (b, a + 2 * b))%Q, gap_layer)) cap_ports
      ++ [(enclosure_box, metal_layer)]
  /\ flat_map lshift_calls_of (log run)
     = map (fun pc =>
         (add G (snd pc)
            (references G (port_route G a b metal_layer gap_layer (fst pc))),
          box)) its
       ++ [(c, ground_plane G enclosure_box fingers finger_length finger_gap
                 thickness gap_to_ground metal_layer gap_layer c)]
  /\ flat_map movex_calls_of (log run)
     = flat_map (fun pc =>
         if Qgtb (orientation G (fst pc)) 0
         then [(snd (with_box G a b metal_layer gap_layer (fst pc) (snd pc)),
                (- b)%Q)]
         else []) its
  /\ flat_map move_calls_of (log run)
     = map (fun pc =>
         (snd (box_shifted G a b metal_layer gap_layer (fst pc) (snd pc)),
          move_copy G
            (snd (route_ports G
                    (port_route G a b metal_layer gap_layer (fst pc))))
            (-1 * 0, -1 * (a / 2 + b))%Q)) its
  /\ (forall port c1,
        snd (with_box G a b metal_layer gap_layer port c1)
        = snd (lshift G
                 (add G c1
                    (references G
                       (port_route G a b metal_layer gap_layer port)))
                 box)).
Proof.
  intros run cap cap_ports c0 its c box.
  destruct (enclosed_pair_run G enclosure_box fingers finger_length finger_gap
              thickness a b gap_to_ground metal_layer gap_layer)
    as (l & c' & HL & Hrun).
  pose proof (Loops_after_loop G a b metal_layer gap_layer _ _ _ _ HL) as Hc.
  change (c' = c) in Hc. subst c'.
  pose proof (fun T f g Hf =>
                @Loops_iterations G a b metal_layer gap_layer T f g Hf
                  _ _ _ _ HL) as Hits.
  change (iterations G a b metal_layer gap_layer _ _) with its in Hits.
  subst run. rewrite Hrun. unfold log. cbn [fst].
  rewrite !flat_map_app.
  split; [|split; [|split; [|split]]].
  - rewrite (Loops_flat_map _ boxes_of
               (fun _ => [(term_box a b, gap_layer)])
               (fun port c1 l1 c2 H =>
                  proj2 (proj2 (proj2 (proj2 (proj2 (proj2 (proj2
                    (loop_body_iteration G a b metal_layer gap_layer
                       port c1 l1 c2 H)))))))) _ _ _ _ HL).
    cbn. now rewrite flat_map_single.
  - rewrite (Hits _ lshift_calls_of
               (fun port c1 =>
                  [(with_route G a b metal_layer gap_layer port c1,
                    bbox G (term_box a b) gap_layer)])
               (fun port c1 l1 c2 H =>
                  proj1 (proj2 (proj2
                    (loop_body_iteration G a b metal_layer gap_layer
                       port c1 l1 c2 H))))).
    cbn. now rewrite flat_map_single.
  - rewrite (Hits _ movex_calls_of
               (fun port c1 =>
                  if Qgtb (orientation G port) 0
                  then [(snd (with_box G a b metal_layer gap_layer port c1),
                         (- b)%Q)]
                  else [])
               (fun port c1 l1 c2 H =>
                  proj1 (proj2 (proj2 (proj2
                    (loop_body_iteration G a b metal_layer gap_layer
                       port c1 l1 c2 H)))))).
    cbn. now rewrite app_nil_r.
  - rewrite (Hits _ move_calls_of
               (fun port c1 =>
                  [(snd (box_shifted G a b metal_layer gap_layer port c1),
                    box_destination G a b metal_layer gap_layer port)])
               (fun port c1 l1 c2 H =>
                  proj1 (proj2 (proj2 (proj2 (proj2
                    (loop_body_iteration G a b metal_layer gap_layer
                       port c1 l1 c2 H))))))).
    cbn. now rewrite app_nil_r, flat_map_single.
  - reflexivity.
Qed.
(** ** The [resolutions] dictionary *)

Lemma port_key_not_a_layer (port : string) :
  port_key port <> "bw" /\ port_key port <> "substrate"
  /\ port_key port <> "vacuum".
Proof. unfold port_key, delimiter. cbn. repeat split; discriminate. Qed.

(** Folding the per-port entries into a dictionary [m]. *)
Lemma port_entries_lookup (names : list string)
    (m : gmap string (gmap string Z)) (key : string) :
  foldl (fun m port => <[port_key port := port_resolution]> m) m names !! key
  = if decide (key ∈ port_key <$> names) then Some port_resolution
    else m !! key.
Proof.
  revert m. induction names as [|p names IH]; intros m; cbn [foldl].
  - rewrite fmap_nil. case_decide as H; [|reflexivity].
    now apply elem_of_nil in H.
  - rewrite IH, fmap_cons.
    destruct (decide (key ∈ port_key <$> names)) as [Hin|Hnin].
    + rewrite decide_True by (now right). reflexivity.
    + destruct (decide (key = port_key p)) as [->|Hne].
      * rewrite decide_True by (now left). apply lookup_insert_eq.
      * rewrite decide_False, lookup_insert_ne by set_solver. reflexivity.
Qed.

(** A key of [resolutions_of names] is a port key, with the port
    settings, or one of the three fixed keys. *)
Lemma resolutions_lookup (names : list string) (key : string) :
  resolutions_of names !! key
  = if decide (key ∈ port_key <$> names) then Some port_resolution
    else (<["vacuum" := {["resolution" := 40]}]>
            (<["substrate" := {["resolution" := 40]}]>
               (<["bw" := {["resolution" := 15]}]> ∅))
          : gmap string (gmap string Z)) !! key.
Proof. apply (port_entries_lookup names). Qed.

Lemma layer_keys_are_not_port_keys (names : list string) (key : string) :
  key ∈ ["bw"; "substrate"; "vacuum"] -> key ∉ port_key <$> names.
Proof.
  intros Hk Hin. apply list_elem_of_fmap in Hin.
  destruct Hin as (p & -> & _).
  destruct (port_key_not_a_layer p) as (H1 & H2 & H3).
  set_solver.
Qed.

Lemma resolutions_dom (names : list string) :
  dom (resolutions_of names)
  = ({["bw"; "substrate"; "vacuum"]} : gset string)
    ∪ list_to_set (port_key <$> names).
Proof.
  apply set_eq. intros key. rewrite elem_of_dom, resolutions_lookup.
  rewrite elem_of_union, elem_of_list_to_set.
  destruct (decide (key ∈ port_key <$> names)) as [Hin|Hnin].
  - split; [now right|]. intros _. eexists. reflexivity.
  - rewrite <- elem_of_dom, !dom_insert_L, dom_empty_L. set_solver.
Qed.

(** X4. For any list of port names, also with repeats: the three
    per-layer entries keep their value ("bw" 15, "substrate" 40, "vacuum"
    40), since no key [bw__<port>] can coincide with them; every port of
    the list has its entry [bw__<port>] with the five refinement
    settings; and there is no other key. *)
Theorem resolutions_cover_layers_and_ports (names : list string) :
  resolutions_of names !! "bw" = Some {["resolution" := 15]}
  /\ resolutions_of names !! "substrate" = Some {["resolution" := 40]}
  /\ resolutions_of names !! "vacuum" = Some {["resolution" := 40]}
  /\ Forall (fun port =>
       resolutions_of names !! ("bw__" +:+ port)
       = Some (<["SizeMin" := 3]> (<["SizeMax" := 14]> (<["DistMin" := 10]>
                 (<["DistMax" := 30]> (<["resolution" := 20]> ∅))))))
       names
  /\ dom (resolutions_of names)
     = ({["bw"; "substrate"; "vacuum"]} : gset string)
       ∪ list_to_set ((fun port => "bw__" +:+ port) <$> names).
Proof.
  pose proof (resolutions_lookup names) as Hlook.
  pose proof (layer_keys_are_not_port_keys names) as Hlayer.
  repeat split.
  - rewrite Hlook, decide_False by (apply Hlayer; set_solver). reflexivity.
  - rewrite Hlook, decide_False by (apply Hlayer; set_solver). reflexivity.
  - rewrite Hlook, decide_False by (apply Hlayer; set_solver). reflexivity.
  - apply Forall_forall. intros port Hin.
    change ("bw__" +:+ port) with (port_key port).
    rewrite Hlook, decide_True; [reflexivity|].
    apply list_elem_of_fmap. eauto.
  - apply (resolutions_dom names).
Qed.

(** ** What the solver call is given, argument against argument *)

(** X5. In the one solver call of a run, the mesh parameters agree with
    the other arguments: [portnames] are the ports of the component
    passed; every one of these ports has its entry in [resolutions], with
    the five refinement settings, under the key made of "bw", the
    delimiter passed as [layer_portname_delimiter], and the port's name;
    and every key of [resolutions] is a layer of the layer stack passed,
    the background tag, or such a port key. *)
Theorem mesh_parameters_agree_with_component
    (G : Gdsfactory) (W : World G) :
  exists args,
    flat_map solver_args_of (log (notebook W)) = [args]
    /\ let mp := arg_mesh_parameters args in
       let key_of := fun port : string =>
         "bw" +:+ layer_portname_delimiter mp +:+ port in
       portnames mp = ports G (arg_component args)
       /\ Forall (fun np =>
            resolutions mp !! key_of (fst np)
            = Some (<["SizeMin" := 3]> (<["SizeMax" := 14]>
                      (<["DistMin" := 10]> (<["DistMax" := 30]>
                         (<["resolution" := 20]> ∅))))))
            (portnames mp)
       /\ dom (resolutions mp)
          = dom (layers (arg_layer_stack args))
            ∪ {[background_tag mp]}
            ∪ list_to_set (key_of <$> map fst (portnames mp)).
Proof.
  destruct (notebook_solver_call W) as (steps & c & _ & Hargs & _).
  exists (the_solver_args W c). split; [exact Hargs|].
  cbv zeta. cbn [the_solver_args solver_args arg_mesh_parameters
                 mesh_parameters_of portnames resolutions arg_component
                 arg_layer_stack layer_portname_delimiter background_tag].
  split; [reflexivity|]. split.
  - apply Forall_forall. intros np Hin.
    change ("bw" +:+ delimiter +:+ np.1) with (port_key np.1).
    rewrite resolutions_lookup, decide_True; [reflexivity|].
    apply list_elem_of_fmap. exists np.1. split; [reflexivity|].
    apply list_elem_of_In, in_map, list_elem_of_In, Hin.
  - rewrite resolutions_dom.
    change (fun port : string => "bw" +:+ delimiter +:+ port) with port_key.
    unfold layer_stack. cbn [layers].
    rewrite !dom_insert_L, dom_empty_L. set_solver.
Qed.

(** ** The plotting cell and the layer stack *)

(** X6. The plotting cell, for any results and any layer stack: with no
    field file it does nothing, whatever the layer stack; with a field
    file and no "bw" layer it raises [KeyError] once the file is read and
    before any slice or plotter call; with both, it slices at the zmin of
    that "bw" layer times 1e-6 and shows the plot. *)
Theorem plot_cell_by_cases
    (G : Gdsfactory) (W : World G) (results : Results W) (ls : LayerStack) :
  cell_plot W results ls
  = match field_file_location W results, layers ls !! "bw" with
    | None, _ => ([], inr tt)
    | Some loc, None =>
        ([EvPvRead loc; EvAssign "field"], inl (KeyError "bw"))
    | Some loc, Some lvl =>
        let z := PyMul (zmin lvl) (PyFloat 1 (-6)) in
        ([ EvPvRead loc; EvAssign "field";
           EvSliceOrthogonal (pv_read W loc) z; EvAssign "slice";
           EvPlotter; EvAssign "p";
           EvAddMesh (slice_orthogonal W (pv_read W loc) z)
             "electric field" "turbo";
           EvShowGrid; EvSetCameraPosition "xy";
           EvEnableParallelProjection; EvShow ],
         inr tt)
    end.
Proof.
  unfold cell_plot.
  destruct (field_file_location W results) as [loc|]; [|reflexivity].
  unfold plot_field, slice_height.
  destruct (layers ls !! "bw") as [lvl|]; reflexivity.
Qed.

(** ** The two calls of [flatten] *)

Lemma loop_body_no_flatten (G : Gdsfactory) (a b : Q)
    (metal_layer gap_layer : LayerSpec) port c l c' :
  loop_body G [a; b] metal_layer gap_layer port c = (l, inr c') ->
  flat_map flattened_of l = [].
Proof.
  intros H. unfold loop_body in H; cbn in H.
  destruct (direction_of G port <? 0)%Z; cbn in H;
    injection H as <- <-; reflexivity.
Qed.

Lemma flattens_of_geometry {G} (W : World G) (calls : list (Call G)) :
  flat_map (@flattens_of G W) (map EvGf calls) = flat_map flattened_of calls.
Proof.
  induction calls as [|e calls IH]; [reflexivity|].
  cbn [map flat_map]. now rewrite IH.
Qed.

Lemma flattens_of_phase {G W} (ph : Phase) (t : list (Event G W)) :
  ph <> Geometry ->
  Forall (fun e => phase_of e = ph) t ->
  flat_map flattens_of t = [].
Proof.
  intros Hph H. induction H as [|e t He _ IH]; [reflexivity|].
  cbn [flat_map]. rewrite IH, app_nil_r.
  destruct e; cbn in He; try reflexivity. now elim Hph.
Qed.

(** X7. In every run [flatten] is called twice: by the cell function on
    the component it has built, whose flattened copy is what the notebook
    places in [c]; and by the last line of the geometry cell on [c].  The
    value of that second call is dropped: the component the solver
    receives, and the notebook ends with, is [c] itself, as the last [<<]
    left it. *)
Theorem closing_flatten_is_dropped (G : Gdsfactory) (W : World G) :
  exists inner,
    let c := with_substrate (flatten G inner) in
    flat_map flattens_of (log (notebook W)) = [inner; c]
    /\ map arg_component (flat_map solver_args_of (log (notebook W))) = [c]
    /\ exists results, outcome (notebook W) = inr (c, results).
Proof.
  destruct (enclosed_pair_run G simulation_box (default_fingers G)
              (default_finger_length G) (default_finger_gap G)
              (default_thickness G) 10 6 5 (LAYER "WG") (LAYER "DEEPTRENCH"))
    as (l & c0 & HL & Hencl).
  pose proof (notebook_returns W _ _ Hencl) as Hrun.
  pose proof (Loops_flat_map _ flattened_of (fun _ => [])
                (loop_body_no_flatten G 10 6 (LAYER "WG") (LAYER "DEEPTRENCH"))
                _ _ _ _ HL) as Hloop.
  rewrite flat_map_nothing in Hloop.
  exists (fst (lshift G c0
                 (ground_plane G simulation_box (default_fingers G)
                    (default_finger_length G) (default_finger_gap G)
                    (default_thickness G) 5 (LAYER "WG") (LAYER "DEEPTRENCH")
                    c0))).
  cbv zeta. rewrite Hrun. unfold log, outcome. cbn [fst snd].
  split; [|split].
  - rewrite !flat_map_app.
    rewrite (flattens_of_phase Visualization _ ltac:(discriminate)
               (last_cell_log_phase W _)).
    unfold geometry_log. rewrite !flat_map_app, flattens_of_geometry.
    rewrite !flat_map_app, Hloop. reflexivity.
  - rewrite !flat_map_app.
    rewrite (solver_args_of_phase Geometry _ ltac:(discriminate)
               (geometry_log_phase W _ _)).
    rewrite (solver_args_of_phase Visualization _ ltac:(discriminate)
               (last_cell_log_phase W _)).
    reflexivity.
  - eexists. reflexivity.
Qed.

(** ** The sequence of library calls *)

Lemma loop_body_names (G : Gdsfactory) (a b : Q)
    (metal_layer gap_layer : LayerSpec) port c l c' :
  loop_body G [a; b] metal_layer gap_layer port c = (l, inr c') ->
  flat_map (fun e => [name_of e]) l
  = iteration_names (Qgtb (orientation G port) 0).
Proof.
  intros H. unfold loop_body in H; cbn in H.
  rewrite direction_negative in H.
  destruct (Qgtb (orientation G port) 0); cbn in H;
    injection H as <- <-; reflexivity.
Qed.

(** X8. A call that goes through makes these library calls and no
    other, in this order: six before the loop; per capacitor port, in the
    order of [get_ports_list], the fourteen calls of an iteration, with a
    [movex] between the [<<] of the termination box and the [move_copy]
    exactly when the port's orientation is positive; eight after the
    loop, ending with [flatten]. *)
Theorem calls_in_order
    (G : Gdsfactory) (enclosure_box : Box) (fingers : Z)
    (finger_length finger_gap thickness a b gap_to_ground : Q)
    (metal_layer gap_layer : LayerSpec) :
  let run := interdigital_capacitor_enclosed G enclosure_box fingers
               finger_length finger_gap thickness [a; b] gap_to_ground
               metal_layer gap_layer in
  let cap_ports := get_ports_list G
                     (ref_center G (interdigital_capacitor G fingers
                        finger_length finger_gap thickness metal_layer)) in
  map name_of (log run)
  = [ "Component"; "interdigital_capacitor"; "ref_center"; "add";
      "Component"; "get_ports_list" ]
    ++ flat_map (fun port =>
         [ "copy"; "move"; "flip"; "Section"; "Section"; "CrossSection";
           "get_route"; "add"; "bbox"; "<<" ]
         ++ (if Qgtb (orientation G port) 0 then ["movex"] else [])
         ++ [ "move_copy"; "move"; "add_port"; "auto_rename_ports" ])
         cap_ports
    ++ [ "get_polygon_enclosure"; "add_polygon"; "offset"; "boolean";
         "bbox"; "boolean"; "<<"; "flatten" ].
Proof.
  intros run cap_ports.
  destruct (enclosed_pair_run G enclosure_box fingers finger_length finger_gap
              thickness a b gap_to_ground metal_layer gap_layer)
    as (l & c & HL & Hrun).
  subst run. rewrite Hrun. unfold log. cbn [fst].
  rewrite !map_app. f_equal. f_equal.
  rewrite <- flat_map_single.
  apply (Loops_flat_map _ (fun e => [name_of e])
           (fun port => iteration_names (Qgtb (orientation G port) 0))
           (loop_body_names G a b metal_layer gap_layer) _ _ _ _ HL).
Qed.
